(** * Handbook Q&A engine of the iDiscipline backend

    A shallow embedding of the pattern-based chatbot code of the server
    (the two copies of the server file carry the same text):

    - [extractTopHandbookPassages] and [extractTopHandbookPassagesFocused],
      the two passage rankers;
    - [deriveQuestionCategory], the keyword classifier;
    - [CHATBOT_FAQ] and [getFAQAnswer], the FAQ table and its resolver;
    - [checkRateLimit] and the handlers of [POST /api/ask-handbook] and
      [POST /api/chatbot/ask].

    JavaScript strings are modelled by their sequence of code units, for
    code units below 256 (the [ascii] type read as Latin-1); on that range
    [toLowerCase], [trim], [\s] and [.] are written out below.  Numbers
    that the code only uses as integers are [Z]. *)

From Stdlib Require Import ZArith NArith Ascii String List Bool Lia.
From Stdlib Require Import Sorting.Sorted Sorting.Permutation.
From stdpp Require Import gmap strings list fin_maps sorting.

Local Open Scope Z_scope.

(** ** Code units and the String.prototype methods the code calls *)

Module Js.

Definition code (c : ascii) : N := N_of_ascii c.

Definition inRange (lo hi : N) (c : ascii) : bool :=
  ((lo <=? code c) && (code c <=? hi))%N.

(** WhiteSpace and LineTerminator code points below 256: TAB, LF, VT, FF,
    CR, SP and NBSP.  This is the set of [\s] and of [trim]. *)
Definition isSpace (c : ascii) : bool :=
  inRange 9 13 c || (code c =? 32)%N || (code c =? 160)%N.

(** [.] without the [s] flag: everything but LF and CR. *)
Definition isDot (c : ascii) : bool :=
  negb ((code c =? 10)%N || (code c =? 13)%N).

Definition isLowerAlnum (c : ascii) : bool :=
  inRange 97 122 c || inRange 48 57 c.

(** One code unit of [toLowerCase]: A-Z and the Latin-1 capitals
    (0xC0-0xDE without the multiplication sign 0xD7) move up by 32. *)
Definition lowerChar (c : ascii) : ascii :=
  if inRange 65 90 c || (inRange 192 222 c && negb (code c =? 215)%N)
  then ascii_of_N (code c + 32) else c.

(** Canonicalize of a case-insensitive regular expression without the [u]
    flag: upper-casing of one code unit.  The two Latin-1 letters whose
    capital lies above 255 (0xB5, 0xFF) are alone in their class and are
    left in place. *)
Definition canonChar (c : ascii) : ascii :=
  if inRange 97 122 c || (inRange 224 254 c && negb (code c =? 247)%N)
  then ascii_of_N (code c - 32) else c.

Definition chars (s : string) : list ascii := list_ascii_of_string s.
Definition str (l : list ascii) : string := string_of_list_ascii l.

Definition toLowerCase (s : string) : string := str (map lowerChar (chars s)).

Fixpoint dropSpaces (l : list ascii) : list ascii :=
  match l with
  | c :: l' => if isSpace c then dropSpaces l' else l
  | [] => []
  end.

Definition trimChars (l : list ascii) : list ascii :=
  rev (dropSpaces (rev (dropSpaces l))).

Definition trim (s : string) : string := str (trimChars (chars s)).

Fixpoint isPrefix (p s : list ascii) : bool :=
  match p, s with
  | [], _ => true
  | a :: p', b :: s' => Ascii.eqb a b && isPrefix p' s'
  | _ :: _, [] => false
  end.

Fixpoint includesChars (s p : list ascii) : bool :=
  isPrefix p s ||
  match s with
  | [] => false
  | _ :: s' => includesChars s' p
  end.

(** [s.includes(p)] *)
Definition includes (s p : string) : bool := includesChars (chars s) (chars p).

(** [s.split(sep)] for a separator of one code unit; [acc] is the piece
    being read, reversed.  The empty string gives one empty piece. *)
Fixpoint splitOn (sep : ascii) (acc s : list ascii) : list (list ascii) :=
  match s with
  | [] => [rev acc]
  | c :: s' =>
      if Ascii.eqb c sep then rev acc :: splitOn sep [] s'
      else splitOn sep (c :: acc) s'
  end.

Definition split (s : string) (sep : ascii) : list string :=
  map str (splitOn sep [] (chars s)).

(** Truthiness of a string: [Boolean(s)], [!s]. *)
Definition truthy (s : string) : bool :=
  match s with EmptyString => false | _ => true end.

Definition strlen (s : string) : Z := Z.of_nat (String.length s).

(** [l.slice(0, e)] for an integer [e]: a negative end counts from the end
    of the array. *)
Definition slice0 {A} (l : list A) (e : Z) : list A :=
  let len := Z.of_nat (length l) in
  let final := if e <? 0 then Z.max (len + e) 0 else Z.min e len in
  take (Z.to_nat final) l.

(** [l.join(sep)] *)
Fixpoint join (sep : string) (l : list string) : string :=
  match l with
  | [] => ""
  | [x] => x
  | x :: l' => x +:+ sep +:+ join sep l'
  end.

End Js.

(** ** Regular expressions

    The patterns of the code use literals, classes, [.], concatenation,
    alternation, [*] and [+], with or without the [i] flag.  The matcher
    is the backtracking matcher of the language definition: alternatives
    left to right, [*] greedy, an iteration of [*] that consumes nothing
    is given up. *)

Module Re.

Inductive regex : Type :=
| Eps
| Chr (c : ascii)
| Cls (p : ascii → bool)
| Cat (a b : regex)
| Alt (a b : regex)
| Star (a : regex).

Definition Plus (a : regex) : regex := Cat a (Star a).

Fixpoint LitChars (l : list ascii) : regex :=
  match l with
  | [] => Eps
  | [c] => Chr c
  | c :: l' => Cat (Chr c) (LitChars l')
  end.

Definition Lit (s : string) : regex := LitChars (Js.chars s).

Fixpoint AltOf (l : list regex) : regex :=
  match l with
  | [] => Cls (λ _, false)
  | [r] => r
  | r :: l' => Alt r (AltOf l')
  end.

Fixpoint Seq (l : list regex) : regex :=
  match l with
  | [] => Eps
  | [r] => r
  | r :: l' => Cat r (Seq l')
  end.

Definition space : regex := Cls Js.isSpace.
Definition dot : regex := Cls Js.isDot.

Record RegExp := { source : regex; ignoreCase : bool }.

Definition chrMatch (i : bool) (c x : ascii) : bool :=
  if i then Ascii.eqb (Js.canonChar c) (Js.canonChar x) else Ascii.eqb c x.

(** [bt i n r s k]: match [r] at the head of [s] and hand the rest to the
    continuation [k]; [n] bounds the iterations of a star. *)
Fixpoint bt (i : bool) (n : nat) {struct n}
  : regex → list ascii → (list ascii → option (list ascii)) → option (list ascii) :=
  fix go (r : regex) : list ascii → (list ascii → option (list ascii)) → option (list ascii) :=
    λ s k,
    match r with
    | Eps => k s
    | Chr c =>
        match s with
        | x :: s' => if chrMatch i c x then k s' else None
        | [] => None
        end
    | Cls p =>
        match s with
        | x :: s' => if p x then k s' else None
        | [] => None
        end
    | Cat a b => go a s (λ s', go b s' k)
    | Alt a b =>
        match go a s k with
        | Some e => Some e
        | None => go b s k
        end
    | Star a =>
        match n with
        | O => None
        | S n' =>
            match go a s (λ s', if (length s' <? length s)%nat
                                then bt i n' (Star a) s' k else None) with
            | Some e => Some e
            | None => k s
            end
        end
    end.

(** The match of [re] that starts at the head of [s]: what is left of [s]
    after it.  A star iterates at most [length s] times. *)
Definition matchAt (re : RegExp) (s : list ascii) : option (list ascii) :=
  bt (ignoreCase re) (S (length s)) (source re) s Some.

Fixpoint search (re : RegExp) (s : list ascii) : bool :=
  match matchAt re s with
  | Some _ => true
  | None =>
      match s with
      | [] => false
      | _ :: s' => search re s'
      end
  end.

(** [re.test(s)] for an expression without the [g] and [y] flags. *)
Definition test (re : RegExp) (s : string) : bool := search re (Js.chars s).

Arguments test : simpl never.

(** [s.split(re)] for an expression without capture groups.  [acc] is the
    piece being read (reversed) since the last separator; a match that is
    empty and starts where the last separator ended is skipped. *)
Fixpoint splitGo (n : nat) (re : RegExp) (acc s : list ascii) : list (list ascii) :=
  match n with
  | O => []
  | S n' =>
      match s with
      | [] => [rev acc]
      | c :: s' =>
          match matchAt re s with
          | Some rest =>
              if (length rest =? length s)%nat && bool_decide (acc = [])
              then splitGo n' re (c :: acc) s'
              else rev acc :: splitGo n' re [] rest
          | None => splitGo n' re (c :: acc) s'
          end
      end
  end.

Definition split (s : string) (re : RegExp) : list string :=
  match s with
  | EmptyString =>
      match matchAt re [] with
      | Some _ => []
      | None => [""]
      end
  | _ => map Js.str (splitGo (2 * String.length s + 2) re [] (Js.chars s))
  end.

End Re.

(** ** The passage rankers *)

Definition nl : string := String "010"%char "".

(** The class [[^a-z0-9\s]] *)
Definition isOtherChar (c : ascii) : bool :=
  negb (Js.isLowerAlnum c || Js.isSpace c).

(** [/\n\s*\n+/] *)
Definition reBlankLines : Re.RegExp :=
  {| Re.source := Re.Seq [Re.Chr "010"; Re.Star Re.space; Re.Plus (Re.Chr "010")];
     Re.ignoreCase := false |}.

(** [/[^a-z0-9]+/] *)
Definition reNonAlnum : Re.RegExp :=
  {| Re.source := Re.Plus (Re.Cls (λ c, negb (Js.isLowerAlnum c)));
     Re.ignoreCase := false |}.

(** [.replace(/\s+/g, ' ')]: every maximal run of white space becomes one
    space; [inRun] tells that the code unit before was white space. *)
Fixpoint collapseSpaces (inRun : bool) (l : list ascii) : list ascii :=
  match l with
  | [] => []
  | c :: l' =>
      if Js.isSpace c
      then (if inRun then collapseSpaces true l'
            else " "%char :: collapseSpaces true l')
      else c :: collapseSpaces false l'
  end.

(** The [normalize] closure of [extractTopHandbookPassages]. *)
Definition normalize (s : string) : string :=
  Js.trim
    (Js.str
       (collapseSpaces false
          (map (λ c, if isOtherChar c then " "%char else c)
             (Js.chars (Js.toLowerCase s))))).

Definition stopwords : gset string :=
  list_to_set
    ["the";"a";"an";"and";"or";"but";"if";"then";"else";"for";"to";"of";"in";
     "on";"at";"by";"with";"from";"as";"is";"are";"was";"were";"be";"being";
     "been";"this";"that";"these";"those";"it";"its";"do";"does";"did";"can";
     "could";"should";"would";"may";"might";"will";"shall";"your";"you";"we";
     "our";"they";"their"].

(** [const { maxPassages = 3, minLen = 40 } = options]; a field that is
    [None] is absent from the object. *)
Record Options := { maxPassages : option Z; minLen : option Z }.

Definition noOptions : Options := {| maxPassages := None; minLen := None |}.

Record Scored := { idx : nat; score : Z; text : string }.

(** [qTokens]: the words of the normalized question that are not stop
    words. *)
Definition questionTokens (question : string) : list string :=
  filter (λ t, Js.truthy t = true ∧ t ∉ stopwords) (Js.split (normalize question) " ").

(** The loop that fills [qBigrams]; the keys are [a + ' ' + b]. *)
Fixpoint bigramKeys (l : list string) : list string :=
  match l with
  | a :: (b :: _) as l' => (a +:+ " " +:+ b) :: bigramKeys l'
  | _ => []
  end.

Definition passageTokens (p : string) : list string :=
  filter (λ t, Js.truthy t = true) (Js.split (normalize p) " ").

Section Scoring.
Variables (qTokenSet qBigrams : gset string).

Definition unigramScore (pTokens : list string) : Z :=
  foldl (λ acc t, if bool_decide (t ∈ qTokenSet) then acc + 1 else acc) 0 pTokens.

Definition bigramScore (pTokens : list string) : Z :=
  foldl (λ acc bg, if bool_decide (bg ∈ qBigrams) then acc + 2 else acc) 0
    (bigramKeys pTokens).

Definition distinctOverlap (pTokens : list string) : Z :=
  Z.of_nat (size (list_to_set (C := gset string)
                    (filter (λ t, t ∈ qTokenSet) pTokens))).

Definition tokenScore (pTokens : list string) : Z :=
  unigramScore pTokens + bigramScore pTokens + distinctOverlap pTokens.
End Scoring.

(** [qTokenSet] and [qBigrams] *)
Definition questionTokenSet (question : string) : gset string :=
  list_to_set (questionTokens question).

Definition questionBigrams (question : string) : gset string :=
  list_to_set (bigramKeys (questionTokens question)).

(** The score that the [map] callback of the plain ranker gives to a
    paragraph. *)
Definition passageScore (question p : string) : Z :=
  tokenScore (questionTokenSet question) (questionBigrams question) (passageTokens p).

(** [scored.sort((a, b) => b.score - a.score)]: the sort of an array is
    stable, so an element is put in front of the first one that the
    comparator does not order before it. *)
Section Sort.
Context {A : Type} (sc : A → Z).

Fixpoint insertByScore (x : A) (l : list A) : list A :=
  match l with
  | [] => [x]
  | y :: l' =>
      if sc y - sc x <=? 0 then x :: y :: l'
      else y :: insertByScore x l'
  end.

Fixpoint sortByScore (l : list A) : list A :=
  match l with
  | [] => []
  | x :: l' => insertByScore x (sortByScore l')
  end.
End Sort.

(** [x] is ranked before [y]: a higher score, or the same score and an
    earlier place in the array that was sorted. *)
Definition rankedBefore {A : Type} (sc : A → Z) (key : A → nat) (x y : A) : Prop :=
  sc y < sc x ∨ (sc y = sc x ∧ (key x < key y)%nat).

(** [paragraphs] of the plain ranker. *)
Definition paragraphs (fullText : string) (minLen : Z) : list string :=
  filter (λ p, minLen ≤ Js.strlen p) (map Js.trim (Re.split fullText reBlankLines)).

(** The array [scored] of the plain ranker: [idx] is the place of the
    paragraph in [paragraphs]. *)
Definition scoredParagraphs (question : string) (paras : list string) : list Scored :=
  imap (λ i p, {| idx := i; score := passageScore question p; text := p |}) paras.

(** The array [top] of the plain ranker, before the texts are taken out. *)
Definition rankedTop (question fullText : string) (options : Options) : list Scored :=
  let maxP := default 3 (maxPassages options) in
  let minL := default 40 (minLen options) in
  let scored := scoredParagraphs question (paragraphs fullText minL) in
  filter (λ s, 0 < score s) (Js.slice0 (sortByScore score scored) maxP).

(** An argument that is [None] is [undefined] (or [null]). *)
Definition extractTopHandbookPassages
    (question fullText : option string) (options : Options) : list string :=
  match question, fullText with
  | Some q, Some t =>
      if negb (Js.truthy q) || negb (Js.truthy t) then []
      else map text (rankedTop q t options)
  | _, _ => []
  end.

(** [lowerFocus.some(k => lp.includes(k))] *)
Definition mentionsAny (lowerFocus : list string) (p : string) : bool :=
  existsb (λ k, Js.includes (Js.toLowerCase p) k) lowerFocus.

(** [String(question)].  The focused ranker reads its question through
    [String] only: [None] is [undefined], and a question that is [null]
    behaves as the string "null" does. *)
Definition toStr (v : option string) : string := default "undefined" v.

(** The score that the [map] callback of the focused ranker gives to a
    paragraph: 2 for each question token and 1 for each focus keyword that
    is a substring of it. *)
Definition focusedScore (qTokens lowerFocus : list string) (p : string) : Z :=
  let lp := Js.toLowerCase p in
  foldl (λ acc fk, if Js.includes lp fk then acc + 1 else acc)
    (foldl (λ acc t, if Js.includes lp t then acc + 2 else acc) 0 qTokens)
    lowerFocus.

Definition focusedTokens (question : option string) : list string :=
  filter (λ t, Js.truthy t = true) (Re.split (Js.toLowerCase (toStr question)) reNonAlnum).

(** [paras] and [pool] of the focused ranker. *)
Definition focusedParas (fullText : string) : list string :=
  filter (λ p, Js.truthy p = true) (map Js.trim (Re.split fullText reBlankLines)).

Definition focusedPool (lowerFocus paras : list string) : list string :=
  if (0 <? Z.of_nat (length lowerFocus)) then
    let pool := filter (λ p, mentionsAny lowerFocus p = true) paras in
    if bool_decide (length pool = 0%nat) then paras else pool
  else paras.

(** The array [scored] of the focused ranker after [slice] and [filter]:
    pairs of a paragraph and its score. *)
Definition focusedTop (question : option string) (fullText : string)
    (focusKeywords : list string) (options : Options) : list (string * Z) :=
  let maxP := match maxPassages options with
              | Some m => if m =? 0 then 3 else m
              | None => 3
              end in
  let lowerFocus := map Js.toLowerCase focusKeywords in
  let pool := focusedPool lowerFocus (focusedParas fullText) in
  let qTokens := focusedTokens question in
  let scored := map (λ p, (p, focusedScore qTokens lowerFocus p)) pool in
  filter (λ s, 0 < s.2) (Js.slice0 (sortByScore snd scored) maxP).

(** A [fullText] that is [None] is [undefined] or [null] ([!fullText]);
    for [question] see [toStr]. *)
Definition extractTopHandbookPassagesFocused
    (question fullText : option string) (focusKeywords : list string)
    (options : Options) : list string :=
  match fullText with
  | Some t =>
      if negb (Js.truthy t) then []
      else map fst (focusedTop question t focusKeywords options)
  | None => []
  end.

(** ** The category classifier *)

Definition words (i : bool) (l : list Re.regex) : Re.RegExp :=
  {| Re.source := Re.AltOf l; Re.ignoreCase := i |}.

(** [a\s*b] *)
Definition gap0 (a b : string) : Re.regex :=
  Re.Seq [Re.Lit a; Re.Star Re.space; Re.Lit b].

Definition reDressCode : Re.RegExp :=
  words false [Re.Lit "dress"; Re.Lit "uniform"; Re.Lit "groom"; Re.Lit "hair"; Re.Lit "attire"].
Definition reAttendance : Re.RegExp :=
  words false [Re.Lit "attend"; Re.Lit "absen"; Re.Lit "tardy"; Re.Lit "late"].
Definition reAppeals : Re.RegExp :=
  words false [Re.Lit "appeal"; Re.Lit "challenge"; Re.Lit "dispute"; Re.Lit "contest"].
Definition reBullying : Re.RegExp := words false [Re.Lit "bully"].
Definition reSuspension : Re.RegExp := words false [Re.Lit "suspend"].
Definition reExpulsion : Re.RegExp :=
  words false [Re.Lit "expel"; Re.Lit "expulsion"; Re.Lit "dismiss"].
Definition reCategoryC : Re.RegExp := words false [gap0 "category" "c"].
Definition reMajorB : Re.RegExp :=
  words false [gap0 "category" "b"; Re.Lit "cheat"; Re.Lit "plagiar"; Re.Lit "gambl";
               Re.Lit "alcohol"; Re.Lit "vandal"].
Definition reMajorA : Re.RegExp :=
  words false [gap0 "category" "a"; Re.Lit "disrespect"; Re.Lit "fight"; Re.Lit "pda";
               Re.Lit "cutting"; Re.Lit "record"].
Definition reMinor : Re.RegExp :=
  words false [Re.Lit "minor"; gap0 "id" "violation"; Re.Lit "tardi"; Re.Lit "loiter";
               Re.Lit "litter"].
Definition reViolations : Re.RegExp :=
  words false [Re.Lit "violation"; Re.Lit "offense"; Re.Lit "rule"].

(** [q] is [None] for an absent argument: [(q || '')]. *)
Definition deriveQuestionCategory (q : option string) : string :=
  let text := Js.toLowerCase (default "" q) in
  if Re.test reDressCode text then "dressCode"
  else if Re.test reAttendance text then "attendance"
  else if Re.test reAppeals text then "appeals"
  else if Re.test reBullying text then "bullying"
  else if Re.test reSuspension text then "suspension"
  else if Re.test reExpulsion text then "expulsion"
  else if Re.test reCategoryC text then "categoryC"
  else if Re.test reMajorB text then "majorOffensesB"
  else if Re.test reMajorA text then "majorOffensesA"
  else if Re.test reMinor text then "minorOffenses"
  else if Re.test reViolations text then "violations"
  else "general".

(** The tests of the chain, in the order of the source. *)
Definition classifierRules : list (Re.RegExp * string) :=
  [(reDressCode, "dressCode"); (reAttendance, "attendance"); (reAppeals, "appeals");
   (reBullying, "bullying"); (reSuspension, "suspension"); (reExpulsion, "expulsion");
   (reCategoryC, "categoryC"); (reMajorB, "majorOffensesB"); (reMajorA, "majorOffensesA");
   (reMinor, "minorOffenses"); (reViolations, "violations")].

(** The twelve categories of the data model. *)
Definition categories : list string :=
  ["violations"; "attendance"; "dressCode"; "minorOffenses"; "majorOffensesA";
   "majorOffensesB"; "categoryC"; "bullying"; "appeals"; "suspension"; "expulsion";
   "general"].

(** [getCategoryList()], as pairs of key and title. *)
Definition getCategoryList : list (string * string) :=
  [("violations", "Student Conduct and Discipline");
   ("attendance", "Attendance");
   ("dressCode", "Dress Code");
   ("minorOffenses", "Minor Offenses");
   ("majorOffensesA", "Major Offenses Category A");
   ("majorOffensesB", "Major Offenses Category B");
   ("categoryC", "Destructive & Harmful Offenses (Category C)");
   ("bullying", "Anti-Bullying");
   ("appeals", "Appeals Process");
   ("suspension", "Suspension");
   ("expulsion", "Expulsion")].

Definition suggestionTable : gmap string (list string) :=
  list_to_map
    [("violations", ["What are the violation categories?";
                     "What happens if I break a rule?";
                     "How are violations classified?"]);
     ("attendance", ["What is the attendance policy?";
                     "How many absences are allowed?";
                     "What are sanctions for tardiness?"]);
     ("dressCode", ["What is the dress code?";
                    "What are the grooming rules?";
                    "What happens if I violate dress code?"]);
     ("minorOffenses", ["What are minor offenses?";
                        "Sanctions for minor violations";
                        "Examples of minor offenses"]);
     ("majorOffensesA", ["What are Major Offenses Category A?";
                         "Sanctions for Category A offenses";
                         "What happens for repeated violations?"]);
     ("majorOffensesB", ["What are Major Offenses Category B?";
                         "What is the penalty for cheating?";
                         "Sanctions for Category B offenses"]);
     ("categoryC", ["What are Category C offenses?";
                    "Consequences for drugs or weapons?";
                    "Fraternities or hazing consequences"]);
     ("bullying", ["What happens if I bully someone?";
                   "How is bullying handled?";
                   "Anti-bullying policy"]);
     ("suspension", ["What is the suspension policy?";
                     "How long can I be suspended?";
                     "What happens during suspension?"]);
     ("expulsion", ["What is expulsion?";
                    "When can I be expelled?";
                    "Consequences of expulsion"]);
     ("appeals", ["How do I appeal a decision?";
                  "What is the appeals process?";
                  "Can I challenge a violation?"]);
     ("general", ["What are the violation types?";
                  "What is the dress code?";
                  "What are the attendance rules?"])].

(** [s[cat] || s.general] *)
Definition getSuggestionsForCategory (cat : string) : list string :=
  match suggestionTable !! cat with
  | Some l => l
  | None => default [] (suggestionTable !! "general")
  end.

(** ** The FAQ table and its resolver *)

Record FaqItem := { q : Re.RegExp; a : string }.
Record FaqEntry := { faqs : list FaqItem; keywords : list string }.

Definition sanctionWords : Re.regex :=
  Re.AltOf [Re.Lit "violate"; Re.Lit "violation"; Re.Lit "break"; Re.Lit "penalt";
            Re.Lit "penalty"; Re.Lit "sanction"; Re.Lit "consequence"].

Definition dressWords : Re.regex :=
  Re.AltOf [gap0 "dress" "code"; Re.Lit "uniform"; Re.Lit "groom"].

Definition anything : Re.regex := Re.Star Re.dot.

(** The pattern of the first dress-code rule (sanctions), flag [i]. *)
Definition reDressSanctions : Re.RegExp :=
  words true
    [Re.Seq [Re.Seq [Re.Lit "what"; Re.Plus Re.space; Re.Lit "happens";
                     Re.Plus Re.space; Re.Lit "if"];
             Re.Plus Re.space; anything; gap0 "dress" "code"];
     Re.Seq [sanctionWords; anything; dressWords];
     Re.Seq [dressWords; anything; sanctionWords]].

(** The pattern of the second dress-code rule, flag [i]. *)
Definition reWhatIsDressCode : Re.RegExp :=
  words true
    [Re.Seq [Re.Lit "what"; Re.Plus Re.space; Re.Lit "is"; Re.Plus Re.space;
             Re.Lit "the"; Re.Plus Re.space; gap0 "dress" "code"];
     Re.Lit "uniform"; Re.Lit "groom"].

(** [/.*/] *)
Definition reAny : Re.RegExp := {| Re.source := anything; Re.ignoreCase := false |}.

(** U+2011, the hyphen of two of the answers, is above the code units of
    the model; it is written as its three UTF-8 bytes.  The answers are
    only handed on, never read. *)
Definition nbHyphen : string :=
  String "226"%char (String "128"%char (String "145"%char "")).

Definition dressSanctionsAnswer : string :=
  "Dress Code sanctions (summary):" +:+ nl +:+
  "- 1st offense: reminder/counseling; may issue Disciplinary Notification Form (DNF)." +:+ nl +:+
  "- Repeated: Disciplinary Warning Form (DWF) and parent conference." +:+ nl +:+
  "- Further/repeated non" +:+ nbHyphen +:+ "compliance: suspension possible; may be treated as Major Offense." +:+ nl +:+
  "Follow grooming rules and uniform policy to avoid escalation.".

Definition dressCodeAnswer : string :=
  "Students must be presentable and modest." +:+ nl +:+
  "- Boys: navy pants, white polo with school patch, black leather shoes, clean 2x3/3x4 haircut." +:+ nl +:+
  "- Girls: gray/white checkered skirt, white blouse with patch, ribbon/tie, black shoes." +:+ nl +:+
  "PE uniforms only on PE days; ID must be worn at all times.".

Definition dressHighlightsAnswer : string :=
  "Dress Code highlights:" +:+ nl +:+
  "- Wear school uniform and ID at all times." +:+ nl +:+
  "- Follow grooming rules (clean haircut; no make" +:+ nbHyphen +:+ "up, long/polished nails, jewelry/piercings, tattoos)." +:+ nl +:+
  "- PE uniform only on PE days.".

Definition attendanceAnswer : string :=
  "Absences over 20% of class days may lead to failing grade unless excused. Provide excuse letter/medical certificate; prolonged absences require parental notice.".

Definition violationsAnswer : string :=
  "Violations are classified as Minor Offenses, Major Offenses (Category A/B), and Category C (Destructive & Harmful). Sanctions escalate with repeats and severity.".

Definition dressCodeEntry : FaqEntry :=
  {| faqs := [ {| q := reDressSanctions; a := dressSanctionsAnswer |};
               {| q := reWhatIsDressCode; a := dressCodeAnswer |};
               {| q := reAny; a := dressHighlightsAnswer |} ];
     keywords := ["dress"; "uniform"; "groom"; "haircut"; "attire"; "clothing"] |}.

Definition attendanceEntry : FaqEntry :=
  {| faqs := [ {| q := reAny; a := attendanceAnswer |} ];
     keywords := ["attendance"; "absent"; "tardy"; "late"] |}.

Definition violationsEntry : FaqEntry :=
  {| faqs := [ {| q := reAny; a := violationsAnswer |} ];
     keywords := ["violation"; "offense"; "rule"] |}.

Definition CHATBOT_FAQ : gmap string FaqEntry :=
  list_to_map
    [("dressCode", dressCodeEntry);
     ("attendance", attendanceEntry);
     ("violations", violationsEntry)].

(** The keys of [CHATBOT_FAQ]. *)
Definition faqCategories : list string := ["dressCode"; "attendance"; "violations"].

(** [x || null] for a string that may be absent. *)
Definition orNull (x : option string) : option string :=
  match x with
  | Some s => if Js.truthy s then Some s else None
  | None => None
  end.

(** [None] is [null].  The table is read at the keys that it owns; the
    callers pass a category of [deriveQuestionCategory]. *)
Definition getFAQAnswer (category question : string) : option string :=
  match CHATBOT_FAQ !! category with
  | None => None
  | Some entry =>
      match find (λ item, Re.test (q item) question) (faqs entry) with
      | Some item => Some (a item)
      | None => orNull (a <$> head (faqs entry))
      end
  end.

(** ** The rate limiter

    [requestCounts] is a map from a time stamp (the start of a minute, in
    milliseconds) to the number of requests recorded in that minute.  The
    clock [Date.now()] is an argument. *)

Definition RATE_LIMIT_WINDOW : Z := 60000.
Definition MAX_REQUESTS_PER_WINDOW : Z := 10.

Definition rateLimitMessage : string :=
  "Rate limit exceeded. Please wait before making another request.".

(** A call that returns or throws an [Error] with a message. *)
Inductive Outcome (A : Type) : Type :=
| Returns (x : A)
| Throws (message : string).
Arguments Returns {A} x.
Arguments Throws {A} message.

(** The loop that deletes the entries older than the window. *)
Definition cleanOld (now : Z) (requestCounts : gmap Z Z) : gmap Z Z :=
  filter (λ e, ¬ (e.1 < now - RATE_LIMIT_WINDOW)) requestCounts.

(** [Array.from(requestCounts.values()).reduce((sum, count) => sum + count, 0)] *)
Definition currentRequests (requestCounts : gmap Z Z) : Z :=
  foldl (λ sum count, sum + count) 0 (snd <$> map_to_list requestCounts).

(** The map after the call, and whether the call returned. *)
Definition checkRateLimit (now : Z) (requestCounts : gmap Z Z)
  : gmap Z Z * Outcome unit :=
  let cleaned := cleanOld now requestCounts in
  if MAX_REQUESTS_PER_WINDOW <=? currentRequests cleaned
  then (cleaned, Throws rateLimitMessage)
  else
    let currentMinute := now / 60000 * 60000 in
    let old := match cleaned !! currentMinute with
               | Some c => if c =? 0 then 0 else c
               | None => 0
               end in
    (<[currentMinute := old + 1]> cleaned, Returns ()).

(** ** The two endpoints

    The request carries [question]: [None] stands for a body without the
    field or with a value that is not a string.  Reading and parsing the
    handbook file is outside the engine: its outcome [pdf] is an argument,
    [Returns None] for a parse whose [text] is absent. *)

Inductive Body : Type :=
| ErrorBody (error : string)
| AnswerBody (answer : string)
| ChatBody (text : string) (suggestions : list string) (category source : string).

Record Response := { status : Z; body : Body }.

Definition notFoundMessage : string :=
  "No directly relevant section found in the handbook for that question.".

Definition blankLine : string := nl +:+ nl.

(** [!question || typeof question !== 'string' || question.trim().length === 0] *)
Definition isBlank (question : option string) : bool :=
  match question with
  | None => true
  | Some s => negb (Js.truthy s) || (Js.strlen (Js.trim s) =? 0)
  end.

(** [POST /api/ask-handbook]: the map of the limiter after the request and
    the response. *)
Definition askHandbook (now : Z) (requestCounts : gmap Z Z)
    (question : option string) (pdf : Outcome (option string))
  : gmap Z Z * Response :=
  match checkRateLimit now requestCounts with
  | (counts, Throws msg) => (counts, {| status := 500; body := ErrorBody msg |})
  | (counts, Returns _) =>
      if isBlank question
      then (counts, {| status := 400; body := ErrorBody "Question is required." |})
      else
        match pdf with
        | Throws msg => (counts, {| status := 500; body := ErrorBody msg |})
        | Returns data =>
            let pdfText := default "" data in
            let passages :=
              extractTopHandbookPassages question (Some pdfText)
                {| maxPassages := Some 3; minLen := None |} in
            if bool_decide (length passages = 0%nat)
            then (counts, {| status := 200; body := AnswerBody notFoundMessage |})
            else (counts, {| status := 200; body := AnswerBody (Js.join blankLine passages) |})
        end
  end.

(** [a || b] on strings that may be absent. *)
Definition orElse (x : option string) (y : string) : string :=
  match orNull x with
  | Some s => s
  | None => y
  end.

(** [POST /api/chatbot/ask].  The inner [try { ... } catch {}] leaves
    [handbookText] empty when the handbook cannot be read; nothing in the
    outer [try] throws. *)
Definition chatbotAsk (question : option string) (pdf : Outcome (option string))
  : Response :=
  match question with
  | None => {| status := 400; body := ErrorBody "Question is required" |}
  | Some qs =>
      if negb (Js.truthy qs)
      then {| status := 400; body := ErrorBody "Question is required" |}
      else
        let cat := deriveQuestionCategory (Some qs) in
        let faqAnswer := getFAQAnswer cat qs in
        let handbookText :=
          match pdf with
          | Throws _ => ""
          | Returns data =>
              let pdfText := default "" data in
              let focusKeywords := default [] (keywords <$> CHATBOT_FAQ !! cat) in
              Js.join blankLine
                (extractTopHandbookPassagesFocused (Some qs) (Some pdfText) focusKeywords
                   {| maxPassages := Some 2; minLen := None |})
          end in
        let finalText := orElse faqAnswer (orElse (Some handbookText) notFoundMessage) in
        {| status := 200;
           body := ChatBody finalText (getSuggestionsForCategory cat) cat
                     (match orNull faqAnswer with
                      | Some _ => "FAQ"
                      | None => "Student Handbook"
                      end) |}
  end.

(** A handbook of two paragraphs, for the examples below. *)
Definition sampleHandbook : string :=
  "Dress code: students wear the school uniform every day." +:+ nl +:+ nl +:+
  "The code of conduct applies to dress and grooming of all students.".

(** * More of the server *)

(** ** The strings that a pattern matches

    [matches i r s]: the pattern [r] matches the whole of [s] (with the
    flag [i] for case).  An iteration of a star is not empty, as in the
    matcher. *)
Inductive matches (i : bool) : Re.regex → list ascii → Prop :=
| matches_eps : matches i Re.Eps []
| matches_chr c x : Re.chrMatch i c x = true → matches i (Re.Chr c) [x]
| matches_cls (p : ascii → bool) x : p x = true → matches i (Re.Cls p) [x]
| matches_cat a b s1 s2 :
    matches i a s1 → matches i b s2 → matches i (Re.Cat a b) (s1 ++ s2)
| matches_alt_l a b s : matches i a s → matches i (Re.Alt a b) s
| matches_alt_r a b s : matches i b s → matches i (Re.Alt a b) s
| matches_star_nil a : matches i (Re.Star a) []
| matches_star_cons a s1 s2 :
    s1 ≠ [] → matches i a s1 → matches i (Re.Star a) s2 →
    matches i (Re.Star a) (s1 ++ s2).

(** ** Calls of the rate limiter one after the other

    [checkRateLimit] is called by three handlers on the one map
    [requestCounts].  [limiterRun times requestCounts] is the map after
    the calls made at the clock readings [times], in that order, and for
    each call whether it returned ([true]) or threw ([false]). *)
Fixpoint limiterRun (times : list Z) (requestCounts : gmap Z Z)
  : gmap Z Z * list bool :=
  match times with
  | [] => (requestCounts, [])
  | now :: rest =>
      let '(counts, outcome) := checkRateLimit now requestCounts in
      let '(final, outcomes) := limiterRun rest counts in
      (final, match outcome with
              | Returns _ => true
              | Throws _ => false
              end :: outcomes)
  end.

(** The maps that the limiter builds: every key is the start of a minute
    and every count is at least 1. *)
Definition limiterMap (requestCounts : gmap Z Z) : Prop :=
  map_Forall (λ k c, k = k / 60000 * 60000 ∧ 1 ≤ c) requestCounts.

(** Requests to [POST /api/ask-handbook] one after the other: each is the
    clock reading, the question and the outcome of reading the handbook.
    The result is the map of the limiter after them and the responses. *)
Fixpoint askHandbookRun
    (requests : list (Z * option string * Outcome (option string)))
    (requestCounts : gmap Z Z) : gmap Z Z * list Response :=
  match requests with
  | [] => (requestCounts, [])
  | (now, question, pdf) :: rest =>
      let '(counts, response) := askHandbook now requestCounts question pdf in
      let '(final, responses) := askHandbookRun rest counts in
      (final, response :: responses)
  end.

(** The names that every object literal inherits from [Object.prototype].
    A table that the code writes as an object literal is modelled by a
    finite map of its own keys; reading it at one of these names gives the
    inherited member instead, which the finite map does not show. *)
Definition objectPrototypeKeys : list string :=
  ["constructor"; "__defineGetter__"; "__defineSetter__"; "hasOwnProperty";
   "__lookupGetter__"; "__lookupSetter__"; "isPrototypeOf";
   "propertyIsEnumerable"; "toString"; "valueOf"; "__proto__"; "toLocaleString"].

(** ** Patterns between [^] and [$]

    Without the [m] flag [^] holds at the start of the string only and
    [$] at its end only: the test succeeds when the match that starts at
    the head of the string can be made to end at its end. *)
Definition testWhole (re : Re.RegExp) (s : string) : bool :=
  match Re.bt (Re.ignoreCase re) (S (String.length s)) (Re.source re) (Js.chars s)
          (λ rest, match rest with [] => Some [] | _ :: _ => None end) with
  | Some _ => true
  | None => false
  end.

(** [\d], [[A-Za-z]] and [[^\s@]] *)
Definition isDigit (c : ascii) : bool := Js.inRange 48 57 c.
Definition isLetter (c : ascii) : bool := Js.inRange 65 90 c || Js.inRange 97 122 c.
Definition isEmailChar (c : ascii) : bool :=
  negb (Js.isSpace c || Ascii.eqb c "@").

Definition digit : Re.regex := Re.Cls isDigit.

(** [s.startsWith(p)] and [s.substring(n)] *)
Definition startsWith (s p : string) : bool := Js.isPrefix (Js.chars p) (Js.chars s).
Definition substring (s : string) (n : nat) : string := Js.str (drop n (Js.chars s)).

(** ** The phone number sent to the SMS service

    [formatPhoneForSemaphore] of the test script; the handler of
    [POST /send-parent-sms] has the same statements on [parentPhone]. *)

(** [.replace(/\D/g, '')] *)
Definition removeNonDigits (s : string) : string :=
  Js.str (filter (λ c, isDigit c = true) (Js.chars s)).

Definition formatPhoneForSemaphore (phoneNumber : string) : string :=
  let formattedPhone := removeNonDigits phoneNumber in
  if startsWith formattedPhone "63" then "0" +:+ substring formattedPhone 2
  else if startsWith formattedPhone "+63" then "0" +:+ substring formattedPhone 3
  else if negb (startsWith formattedPhone "0") then "0" +:+ formattedPhone
  else formattedPhone.

(** ** The checks of the bulk upload

    The closures and the [switch] cases of [POST /api/bulk-upload-students]
    that clean one cell.  A cell reaches them as [value.toString().trim()]. *)

(** [/^[^\s@]+@[^\s@]+\.[^\s@]+$/] *)
Definition reEmail : Re.RegExp :=
  {| Re.source := Re.Seq [Re.Plus (Re.Cls isEmailChar); Re.Chr "@";
                          Re.Plus (Re.Cls isEmailChar); Re.Chr ".";
                          Re.Plus (Re.Cls isEmailChar)];
     Re.ignoreCase := false |}.

Definition isValidEmail (email : string) : bool := testWhole reEmail email.

(** [/^\+63\d{10}$/] *)
Definition reContactNo : Re.RegExp :=
  {| Re.source := Re.Seq ([Re.Chr "+"; Re.Chr "6"; Re.Chr "3"] ++ replicate 10 digit);
     Re.ignoreCase := false |}.

(** [.replace(/[\s\-\(\)]/g, '')] *)
Definition removeSeparators (s : string) : string :=
  Js.str (filter (λ c, (Js.isSpace c || Ascii.eqb c "-" || Ascii.eqb c "("
                        || Ascii.eqb c ")") = false)
            (Js.chars s)).

(** The case ['Contact No.']: the value that is stored and the messages
    that are pushed on [rowErrors]; [raw] is the cell as it was read, for
    the message. *)
Definition contactNoCase (raw value : string) : string * list string :=
  if Js.truthy value then
    let value := removeSeparators value in
    let value :=
      if startsWith value "+63" then value
      else if startsWith value "63" then "+" +:+ value
      else if startsWith value "0" then "+63" +:+ substring value 1
      else "+63" +:+ value in
    (value,
     if negb (testWhole reContactNo value)
     then ["Invalid contact number format: " +:+ raw +:+
           ". Expected format: +63XXXXXXXXXX or 0XXXXXXXXXX or XXXXXXXXXX"]
     else [])
  else (value, []).

Definition yearMap : gmap string string :=
  list_to_map
    [("7", "7th Grade"); ("7th", "7th Grade"); ("7th grade", "7th Grade");
     ("7th Grade", "7th Grade");
     ("8", "8th Grade"); ("8th", "8th Grade"); ("8th grade", "8th Grade");
     ("8th Grade", "8th Grade");
     ("9", "9th Grade"); ("9th", "9th Grade"); ("9th grade", "9th Grade");
     ("9th Grade", "9th Grade");
     ("10", "10th Grade"); ("10th", "10th Grade"); ("10th grade", "10th Grade");
     ("10th Grade", "10th Grade");
     ("11", "11th Grade"); ("11th", "11th Grade"); ("11th grade", "11th Grade");
     ("11th Grade", "11th Grade");
     ("12", "12th Grade"); ("12th", "12th Grade"); ("12th grade", "12th Grade");
     ("12th Grade", "12th Grade")].

(** What [yearMap[year] || year] gives: a string, or the member that the
    table inherits from [Object.prototype] under the name [key]. *)
Inductive YearValue :=
  | YearString (s : string)
  | YearInherited (key : string).

(** [String(v)], as the template literal and [test] take it.  The
    inherited members are native functions, of the name of their key
    ([Object] for [constructor]), whose text in Node is
    [function name() { [native code] }]; [__proto__] gives
    [Object.prototype] itself, whose text is [[object Object]]. *)
Definition yearText (v : YearValue) : string :=
  match v with
  | YearString s => s
  | YearInherited key =>
      if String.eqb key "__proto__" then "[object Object]"
      else "function " +:+ (if String.eqb key "constructor" then "Object" else key)
           +:+ "() { [native code] }"
  end.

(** Truthiness: functions and objects are truthy. *)
Definition yearTruthy (v : YearValue) : bool :=
  match v with
  | YearString s => Js.truthy s
  | YearInherited _ => true
  end.

(** [None] is [null].  The values of the table are truthy; at a name that
    is not a key of its own the read gives the inherited member when there
    is one, and [undefined] otherwise, which [||] replaces by [year]. *)
Definition standardizeYear (year : string) : option YearValue :=
  if Js.truthy year then
    let year := Js.trim year in
    Some (match yearMap !! year with
          | Some v => YearString v
          | None =>
              if bool_decide (year ∈ objectPrototypeKeys) then YearInherited year
              else YearString year
          end)
  else None.

(** [/^(7|8|9|10|11|12)th Grade$/] *)
Definition reYear : Re.RegExp :=
  {| Re.source := Re.Seq [Re.AltOf (Re.Lit <$> ["7"; "8"; "9"; "10"; "11"; "12"]);
                          Re.Lit "th Grade"];
     Re.ignoreCase := false |}.

(** The case ['Year']: the value that is stored and the messages that are
    pushed on [rowErrors]. *)
Definition yearCase (value : string) : option YearValue * list string :=
  let value := standardizeYear value in
  (value,
   match value with
   | Some v =>
       if yearTruthy v && negb (testWhole reYear (yearText v))
       then ["Invalid year format: " +:+ yearText v] else []
   | None => []
   end).

(** [/^st\.?\s*/i] and [/^St\.\s+[A-Za-z]+$/] *)
Definition reSectionPrefix : Re.RegExp :=
  {| Re.source := Re.Seq [Re.Lit "st"; Re.Alt (Re.Chr ".") Re.Eps; Re.Star Re.space];
     Re.ignoreCase := true |}.

Definition reSection : Re.RegExp :=
  {| Re.source := Re.Seq [Re.Lit "St."; Re.Plus Re.space; Re.Plus (Re.Cls isLetter)];
     Re.ignoreCase := false |}.

(** [section.replace(/\s+/g, ' ').replace(/^st\.?\s*/i, 'St. ')] after the
    trim. *)
Definition standardizeSection (section : string) : option string :=
  if Js.truthy section then
    let collapsed := collapseSpaces false (Js.chars (Js.trim section)) in
    Some (match Re.matchAt reSectionPrefix collapsed with
          | Some rest => "St. " +:+ Js.str rest
          | None => Js.str collapsed
          end)
  else None.

(** The case ['Section']. *)
Definition sectionCase (value : string) : option string * list string :=
  let value := standardizeSection value in
  (value,
   match value with
   | Some v =>
       if Js.truthy v && negb (testWhole reSection v)
       then ["Invalid section format: " +:+ v] else []
   | None => []
   end).

(** ** Repeated violations

    One record of the [violations] array of [POST /api/analyze-personality],
    with the three members that the helpers read, as strings. *)
Record Violation := {
  violationtype : string;
  violationcategory : string;
  datereported : string
}.

(** The loop of [checkRepeatedViolations] from the state [typeCount];
    [(typeCount[t] || 0) + 1] is stored before it is compared with 1. *)
Fixpoint checkRepeatedFrom (typeCount : gmap string Z) (violations : list Violation)
  : bool :=
  match violations with
  | [] => false
  | violation :: rest =>
      let t := violationtype violation in
      let typeCount := <[t := default 0 (typeCount !! t) + 1]> typeCount in
      if 1 <? default 0 (typeCount !! t) then true
      else checkRepeatedFrom typeCount rest
  end.

Definition checkRepeatedViolations (violations : list Violation) : bool :=
  checkRepeatedFrom ∅ violations.

(** * Properties *)

(** ** The matcher *)

Section MatcherFacts.
Context (i : bool).

Lemma bt_unfold (n : nat) (r : Re.regex) (s : list ascii)
    (k : list ascii → option (list ascii)) :
  Re.bt i n r s k
  = match r with
    | Re.Eps => k s
    | Re.Chr c =>
        match s with
        | x :: s' => if Re.chrMatch i c x then k s' else None
        | [] => None
        end
    | Re.Cls p =>
        match s with
        | x :: s' => if p x then k s' else None
        | [] => None
        end
    | Re.Cat a b => Re.bt i n a s (λ s', Re.bt i n b s' k)
    | Re.Alt a b =>
        match Re.bt i n a s k with
        | Some e => Some e
        | None => Re.bt i n b s k
        end
    | Re.Star a =>
        match n with
        | O => None
        | S n' =>
            match Re.bt i n a s (λ s', if (length s' <? length s)%nat
                                       then Re.bt i n' (Re.Star a) s' k else None) with
            | Some e => Some e
            | None => k s
            end
        end
    end.
Proof. destruct n, r; reflexivity. Qed.

(** The bound on the iterations of a star is never reached once it is
    above the length of the string. *)
Lemma bt_fuel (L : nat) :
  ∀ (r : Re.regex) (s : list ascii) (n m : nat)
    (k1 k2 : list ascii → option (list ascii)),
    (length s ≤ L)%nat → (length s < n)%nat → (length s < m)%nat →
    (∀ s', (length s' ≤ length s)%nat → k1 s' = k2 s') →
    Re.bt i n r s k1 = Re.bt i m r s k2.
Proof.
  induction (lt_wf L) as [L _ IHL].
  induction r as [|c|p|a IHa b IHb|a IHa b IHb|a IHa];
    intros s n m k1 k2 HL Hn Hm Hk; rewrite (bt_unfold n), (bt_unfold m).
  - by apply Hk.
  - destruct s as [|x s']; [done|]. destruct (Re.chrMatch i c x); [|done].
    apply Hk. simpl. lia.
  - destruct s as [|x s']; [done|]. destruct (p x); [|done].
    apply Hk. simpl. lia.
  - apply IHa; try done. intros s' Hs'. apply IHb; try lia.
    intros s'' Hs''. apply Hk. lia.
  - rewrite (IHa s n m k1 k2) by done.
    destruct (Re.bt i m a s k2); [done|]. by apply IHb.
  - destruct n as [|n]; [lia|]. destruct m as [|m]; [lia|].
    rewrite (IHa s (S n) (S m) _
               (λ s', if (length s' <? length s)%nat
                      then Re.bt i m (Re.Star a) s' k2 else None)); try done.
    + destruct (Re.bt i (S m) a s _); [done|]. by apply Hk.
    + intros s' Hs'. destruct (Nat.ltb_spec (length s') (length s)); [|done].
      apply (IHL (length s')); try lia.
      intros s'' Hs''. apply Hk. lia.
Qed.

(** What a match leaves is not longer than what it started from. *)
Lemma bt_suffix (n : nat) :
  ∀ (r : Re.regex) (s : list ascii) (k : list ascii → option (list ascii))
    (e : list ascii),
    (∀ s' e', k s' = Some e' → (length e' ≤ length s')%nat) →
    Re.bt i n r s k = Some e → (length e ≤ length s)%nat.
Proof.
  induction n as [n IHn] using lt_wf_ind.
  induction r as [|c|p|a IHa b IHb|a IHa b IHb|a IHa];
    intros s k e Hk; rewrite bt_unfold.
  - apply Hk.
  - destruct s as [|x s']; [done|]. destruct (Re.chrMatch i c x); [|done].
    intros H%Hk. simpl. lia.
  - destruct s as [|x s']; [done|]. destruct (p x); [|done].
    intros H%Hk. simpl. lia.
  - apply IHa. intros s' e'. by apply IHb.
  - destruct (Re.bt i n a s k) eqn:Ha.
    + intros [= <-]. by eapply IHa.
    + by apply IHb.
  - destruct n as [|n']; [done|].
    destruct (Re.bt i (S n') a s _) eqn:Ha.
    + intros [= <-]. eapply IHa; [|exact Ha].
      intros s' e'. cbv beta. destruct (length s' <? length s)%nat; [|done].
      apply IHn; [lia|done].
    + apply Hk.
Qed.

End MatcherFacts.

Lemma matchAt_suffix (re : Re.RegExp) (s rest : list ascii) :
  Re.matchAt re s = Some rest → (length rest ≤ length s)%nat.
Proof. apply bt_suffix. by intros s' e' [= ->]. Qed.

(** [matchAt] gives the same result with any larger bound. *)
Lemma matchAt_fuel (re : Re.RegExp) (s : list ascii) (n : nat) :
  (length s < n)%nat →
  Re.bt (Re.ignoreCase re) n (Re.source re) s Some = Re.matchAt re s.
Proof.
  intros Hn. unfold Re.matchAt. apply (bt_fuel _ (length s)); try done. lia.
Qed.

(** The bound of [splitGo] is never reached: two steps for each code unit
    and one for the end of the string are enough. *)
Lemma splitGo_fuel (re : Re.RegExp) (n : nat) :
  ∀ (m : nat) (acc s : list ascii),
    (2 * length s + (if bool_decide (acc = []) then 1 else 2) ≤ n)%nat →
    (2 * length s + (if bool_decide (acc = []) then 1 else 2) ≤ m)%nat →
    Re.splitGo n re acc s = Re.splitGo m re acc s.
Proof.
  induction n as [|n IH]; intros m acc s Hn Hm.
  { case_bool_decide; lia. }
  destruct m as [|m]; [case_bool_decide; lia|].
  simpl. destruct s as [|c s']; [done|].
  destruct (Re.matchAt re (c :: s')) as [rest|] eqn:Hmatch.
  - apply matchAt_suffix in Hmatch.
    destruct (Nat.eqb_spec (length rest) (length (c :: s'))) as [Heq|Hne];
      simpl in *.
    + case_bool_decide as Hacc; simpl.
      * apply IH; rewrite bool_decide_eq_false_2 by done; lia.
      * f_equal. apply IH; rewrite bool_decide_eq_true_2 by done; lia.
    + f_equal. apply IH; rewrite bool_decide_eq_true_2 by done;
        case_bool_decide; lia.
  - simpl in Hn, Hm.
    apply IH; rewrite bool_decide_eq_false_2 by done; case_bool_decide; lia.
Qed.

Lemma split_fuel (re : Re.RegExp) (s : string) (n : nat) :
  s ≠ "" → (2 * String.length s + 2 ≤ n)%nat →
  Re.split s re = map Js.str (Re.splitGo n re [] (Js.chars s)).
Proof.
  intros Hs Hn. destruct s as [|c s]; [done|]. unfold Re.split. f_equal.
  assert (Hlen : length (Js.chars (String c s)) = String.length (String c s)).
  { generalize (String c s). intros t. induction t; simpl; [done|]. by f_equal. }
  apply splitGo_fuel; rewrite Hlen, bool_decide_eq_true_2 by done;
    simpl String.length in *; lia.
Qed.

(** ** The stable sort *)

Section SortFacts.
Context {A : Type} (sc : A → Z) (key : A → nat).

Lemma insertByScore_perm (x : A) (l : list A) :
  insertByScore sc x l ≡ₚ x :: l.
Proof.
  induction l as [|y l IH]; simpl; [done|].
  destruct (sc y - sc x <=? 0); [done|].
  rewrite IH. apply Permutation_swap.
Qed.

Lemma sortByScore_perm (l : list A) : sortByScore sc l ≡ₚ l.
Proof.
  induction l as [|x l IH]; simpl; [done|].
  by rewrite insertByScore_perm, IH.
Qed.

Lemma rankedBefore_le (x y : A) : rankedBefore sc key x y → sc y ≤ sc x.
Proof. intros [?|[? _]]; lia. Qed.

Lemma insertByScore_ranked (x : A) (l : list A) :
  Forall (λ y, (key x < key y)%nat) l →
  StronglySorted (rankedBefore sc key) l →
  StronglySorted (rankedBefore sc key) (insertByScore sc x l).
Proof.
  induction l as [|y l IH]; simpl; intros Hkey Hs.
  - repeat constructor.
  - apply Forall_cons in Hkey as [Hy Hl].
    apply StronglySorted_inv in Hs as [Hs Hyl].
    destruct (Z.leb_spec (sc y - sc x) 0) as [Hle|Hgt].
    + constructor; [by constructor|].
      constructor.
      * destruct (decide (sc y = sc x)); [by right|left; lia].
      * rewrite Forall_forall in Hyl, Hl |- *. intros z Hz.
        specialize (Hyl z Hz). apply rankedBefore_le in Hyl.
        specialize (Hl z Hz).
        destruct (decide (sc z = sc x)); [by right|left; lia].
    + constructor; [by apply IH|].
      rewrite insertByScore_perm. constructor; [left; lia|done].
Qed.

Lemma sortByScore_ranked (l : list A) :
  StronglySorted (λ x y, (key x < key y)%nat) l →
  StronglySorted (rankedBefore sc key) (sortByScore sc l).
Proof.
  induction l as [|x l IH]; simpl; intros Hs; [constructor|].
  apply StronglySorted_inv in Hs as [Hs Hx].
  apply insertByScore_ranked; [|by apply IH].
  by rewrite sortByScore_perm.
Qed.

Lemma StronglySorted_sublist (R : relation A) (l k : list A) :
  l `sublist_of` k → StronglySorted R k → StronglySorted R l.
Proof.
  induction 1 as [|x l k Hsub IH|x l k Hsub IH]; intros Hs; [done| |].
  - apply StronglySorted_inv in Hs as [Hs Hx].
    constructor; [by apply IH|].
    rewrite Forall_forall in Hx |- *. intros y Hy.
    apply Hx. by eapply elem_of_sublist.
  - apply StronglySorted_inv in Hs as [Hs _]. by apply IH.
Qed.

Lemma slice0_sublist (l : list A) (e : Z) : Js.slice0 l e `sublist_of` l.
Proof. apply sublist_take. Qed.

Lemma slice0_length (l : list A) (e : Z) :
  0 ≤ e → Z.of_nat (length (Js.slice0 l e)) ≤ e.
Proof.
  intros He. unfold Js.slice0. rewrite length_take.
  destruct (Z.ltb_spec e 0); lia.
Qed.

End SortFacts.

(** ** The plain ranker *)

Lemma StronglySorted_lookup_2 {A} (R : relation A) (l : list A) :
  (∀ i j x y, (i < j)%nat → l !! i = Some x → l !! j = Some y → R x y) →
  StronglySorted R l.
Proof.
  induction l as [|x l IH]; intros H; constructor.
  - apply IH. intros i j y z Hij Hy Hz. by apply (H (S i) (S j)); [lia|..].
  - apply Forall_lookup. intros j y Hy. by apply (H 0%nat (S j)); [lia|..].
Qed.

Lemma scoredParagraphs_idx_sorted (question : string) (paras : list string) :
  StronglySorted (λ x y, (idx x < idx y)%nat) (scoredParagraphs question paras).
Proof.
  apply StronglySorted_lookup_2. intros i j x y Hij Hx Hy.
  unfold scoredParagraphs in Hx, Hy. rewrite list_lookup_imap in Hx, Hy.
  destruct (paras !! i); destruct (paras !! j); simplify_eq/=. done.
Qed.

Lemma scoredParagraphs_elem (question : string) (paras : list string) (s : Scored) :
  s ∈ scoredParagraphs question paras →
  score s = passageScore question (text s) ∧ paras !! idx s = Some (text s).
Proof.
  intros (i & Hi)%list_elem_of_lookup. unfold scoredParagraphs in Hi.
  rewrite list_lookup_imap in Hi.
  destruct (paras !! i) eqn:E; simplify_eq/=. done.
Qed.

Lemma rankedTop_sublist (question fullText : string) (options : Options) :
  ∃ k, rankedTop question fullText options `sublist_of` k ∧
       k ≡ₚ scoredParagraphs question
              (paragraphs fullText (default 40 (minLen options))) ∧
       StronglySorted (rankedBefore score idx) k.
Proof.
  eexists. split; [|split].
  - unfold rankedTop. etrans; [apply sublist_filter|apply slice0_sublist].
  - apply sortByScore_perm.
  - apply sortByScore_ranked, scoredParagraphs_idx_sorted.
Qed.

Lemma rankedTop_length (question fullText : string) (options : Options) :
  0 ≤ default 3 (maxPassages options) →
  Z.of_nat (length (rankedTop question fullText options))
    ≤ default 3 (maxPassages options).
Proof.
  intros Hm. unfold rankedTop.
  pose proof (length_filter (λ s, 0 < score s)
                (Js.slice0 (sortByScore score
                   (scoredParagraphs question
                      (paragraphs fullText (default 40 (minLen options)))))
                   (default 3 (maxPassages options)))) as Hf.
  pose proof (slice0_length
                (sortByScore score
                   (scoredParagraphs question
                      (paragraphs fullText (default 40 (minLen options)))))
                _ Hm).
  lia.
Qed.

Lemma rankedTop_positive (question fullText : string) (options : Options) :
  Forall (λ s, 0 < score s) (rankedTop question fullText options).
Proof.
  apply Forall_forall. intros s Hs. unfold rankedTop in Hs.
  by apply list_elem_of_filter in Hs as [? _].
Qed.

Lemma rankedTop_elem (question fullText : string) (options : Options) (s : Scored) :
  s ∈ rankedTop question fullText options →
  score s = passageScore question (text s) ∧
  paragraphs fullText (default 40 (minLen options)) !! idx s = Some (text s).
Proof.
  intros Hs. destruct (rankedTop_sublist question fullText options) as (k & Hsub & Hp & _).
  apply scoredParagraphs_elem. rewrite <- Hp. by eapply elem_of_sublist.
Qed.

Lemma rankedTop_sorted (question fullText : string) (options : Options) :
  StronglySorted (rankedBefore score idx) (rankedTop question fullText options).
Proof.
  destruct (rankedTop_sublist question fullText options) as (k & Hsub & _ & Hs).
  by eapply StronglySorted_sublist.
Qed.

(** C2.  Whatever the question, the document and the options, the
    passages that [extractTopHandbookPassages] returns are the texts of an
    array [top] of scored paragraphs such that: [top] has at most
    [maxPassages] entries, for every bound [maxPassages] (a number of
    passages, so not negative; 3 when the option is absent); every entry
    has a score above zero, which is the score of its text against the
    question, and [idx] is the place of that text among the paragraphs of
    the document; and [top] is in descending order of score, entries of
    the same score in the order of the document. *)
Theorem plain_ranker_bounded_positive_sorted
    (question fullText : option string) (options : Options) :
  ∃ top : list Scored,
    extractTopHandbookPassages question fullText options = text <$> top ∧
    (0 ≤ default 3 (maxPassages options) →
     Z.of_nat (length (extractTopHandbookPassages question fullText options))
       ≤ default 3 (maxPassages options)) ∧
    Forall (λ s, 0 < score s) top ∧
    (∀ qs t, question = Some qs → fullText = Some t →
       Forall (λ s, score s = passageScore qs (text s) ∧
                    paragraphs t (default 40 (minLen options)) !! idx s
                      = Some (text s)) top) ∧
    StronglySorted (rankedBefore score idx) top.
Proof.
  assert (Hnil : ∀ m : Z, 0 ≤ m → Z.of_nat (length (@nil string)) ≤ m)
    by (simpl; lia).
  destruct question as [qs|], fullText as [t|]; simpl;
    try (exists []; repeat split; auto using Forall_nil, SSorted_nil; fail).
  destruct (negb (Js.truthy qs) || negb (Js.truthy t)).
  - exists []. repeat split; auto using Forall_nil, SSorted_nil.
  - exists (rankedTop qs t options). split; [done|]. split; [|split; [|split]].
    + intros Hm. rewrite length_map. by apply rankedTop_length.
    + apply rankedTop_positive.
    + intros ? ? [= <-] [= <-]. apply Forall_forall. intros s Hs.
      by apply rankedTop_elem.
    + apply rankedTop_sorted.
Qed.

Lemma extractTopHandbookPassages_elem
    (question fullText : option string) (options : Options) (p : string) :
  p ∈ extractTopHandbookPassages question fullText options →
  ∃ qs t, question = Some qs ∧ fullText = Some t ∧
          Js.truthy qs = true ∧ Js.truthy t = true ∧
          0 < passageScore qs p ∧
          p ∈ paragraphs t (default 40 (minLen options)).
Proof.
  destruct question as [qs|], fullText as [t|]; simpl;
    try (by intros ?%elem_of_nil).
  destruct (Js.truthy qs) eqn:Hq, (Js.truthy t) eqn:Ht; simpl;
    try (by intros ?%elem_of_nil).
  intros (s & -> & Hs)%list_elem_of_fmap.
  exists qs, t. repeat split; try done.
  - pose proof (rankedTop_positive qs t options) as Hpos.
    rewrite Forall_forall in Hpos. specialize (Hpos s Hs).
    apply rankedTop_elem in Hs as [<- _]. done.
  - apply rankedTop_elem in Hs as [_ Hs]. by eapply list_elem_of_lookup_2.
Qed.

(** ** The focused ranker *)

Lemma focusedPool_subseteq (lowerFocus paras : list string) (p : string) :
  p ∈ focusedPool lowerFocus paras → p ∈ paras.
Proof.
  unfold focusedPool. destruct (0 <? _); [|done].
  case_bool_decide; [done|]. by intros [_ ?]%list_elem_of_filter.
Qed.

Lemma focusedTop_elem (question : option string) (fullText : string)
    (focusKeywords : list string) (options : Options) (p : string) (n : Z) :
  (p, n) ∈ focusedTop question fullText focusKeywords options →
  0 < n ∧
  n = focusedScore (focusedTokens question) (map Js.toLowerCase focusKeywords) p ∧
  p ∈ focusedParas fullText.
Proof.
  unfold focusedTop. intros [Hn Hin]%list_elem_of_filter. split; [done|].
  eapply elem_of_sublist in Hin; [|apply slice0_sublist].
  rewrite sortByScore_perm in Hin.
  apply list_elem_of_fmap in Hin as (p' & [= -> ->] & Hp).
  split; [done|]. by eapply focusedPool_subseteq.
Qed.

Lemma extractTopHandbookPassagesFocused_elem
    (question fullText : option string) (focusKeywords : list string)
    (options : Options) (p : string) :
  p ∈ extractTopHandbookPassagesFocused question fullText focusKeywords options →
  ∃ t, fullText = Some t ∧ Js.truthy t = true ∧
       0 < focusedScore (focusedTokens question) (map Js.toLowerCase focusKeywords) p ∧
       p ∈ focusedParas t.
Proof.
  destruct fullText as [t|]; simpl; [|by intros ?%elem_of_nil].
  destruct (Js.truthy t) eqn:Ht; simpl; [|by intros ?%elem_of_nil].
  intros ([p' n] & -> & Hs)%list_elem_of_fmap.
  apply focusedTop_elem in Hs as (Hn & -> & Hp). by exists t.
Qed.

Lemma focus_hits_mention (lp : string) (lowerFocus : list string) (acc : Z) :
  acc < foldl (λ acc fk, if Js.includes lp fk then acc + 1 else acc) acc lowerFocus →
  existsb (λ k, Js.includes lp k) lowerFocus = true.
Proof.
  revert acc. induction lowerFocus as [|fk l IH]; simpl; intros acc H; [lia|].
  destruct (Js.includes lp fk); [done|]. by apply (IH acc).
Qed.

Lemma focusedTokens_empty : focusedTokens (Some "") = [].
Proof. vm_compute. reflexivity. Qed.

Lemma focused_empty_question_mentions
    (fullText : option string) (focusKeywords : list string)
    (options : Options) (p : string) :
  p ∈ extractTopHandbookPassagesFocused (Some "") fullText focusKeywords options →
  mentionsAny (map Js.toLowerCase focusKeywords) p = true.
Proof.
  intros (t & _ & _ & Hn & _)%extractTopHandbookPassagesFocused_elem.
  rewrite focusedTokens_empty in Hn. by eapply focus_hits_mention.
Qed.

(** C3 (as amended).  The plain ranker returns the empty array when the
    document or the question is empty or absent.  The focused ranker
    returns the empty array when the document is empty or absent, whatever
    the question and the focus keywords.  For an empty question the
    focused ranker only returns paragraphs that contain a focus keyword,
    so it returns the empty array when there is no focus keyword. *)
Theorem rankers_empty_arguments :
  (∀ question options,
     extractTopHandbookPassages question None options = [] ∧
     extractTopHandbookPassages question (Some "") options = []) ∧
  (∀ fullText options,
     extractTopHandbookPassages None fullText options = [] ∧
     extractTopHandbookPassages (Some "") fullText options = []) ∧
  (∀ question focusKeywords options,
     extractTopHandbookPassagesFocused question None focusKeywords options = [] ∧
     extractTopHandbookPassagesFocused question (Some "") focusKeywords options = []) ∧
  (∀ fullText focusKeywords options p,
     p ∈ extractTopHandbookPassagesFocused (Some "") fullText focusKeywords options →
     mentionsAny (map Js.toLowerCase focusKeywords) p = true) ∧
  (∀ fullText options,
     extractTopHandbookPassagesFocused (Some "") fullText [] options = []).
Proof.
  split; [|split; [|split; [|split]]].
  - intros [qs|] options; split; try done.
    simpl. by rewrite orb_true_r.
  - intros [t|] options; split; done.
  - intros question focusKeywords options. split; done.
  - intros fullText focusKeywords options p. apply focused_empty_question_mentions.
  - intros fullText options. apply elem_of_nil_inv. intros p Hp.
    by apply focused_empty_question_mentions in Hp.
Qed.

(** The focused ranker does not look at the question before it scores:
    with an empty question, the paragraphs that hold the focus keyword
    score 1 and are returned. *)
Lemma focused_empty_question_counterexample :
  extractTopHandbookPassagesFocused (Some "") (Some sampleHandbook) ["dress"] noOptions
  = ["Dress code: students wear the school uniform every day.";
     "The code of conduct applies to dress and grooming of all students."] ∧
  extractTopHandbookPassagesFocused (Some "") (Some sampleHandbook) ["dress"] noOptions
  ≠ [].
Proof. split; vm_compute; [reflexivity|discriminate]. Qed.


(** C4 (as amended).  Both rankers split the document on blank lines and
    trim every piece.  The plain ranker drops the pieces shorter than
    [minLen] (40 unless the options say otherwise), so each passage it
    returns is a trimmed piece of at least that length.  The focused
    ranker has no length bound: it drops the empty pieces only, so each
    passage it returns is a trimmed piece that is not empty. *)
Theorem ranker_paragraph_filter :
  (∀ question fullText options p,
     p ∈ extractTopHandbookPassages question fullText options →
     default 40 (minLen options) ≤ Js.strlen p ∧
     ∃ t, fullText = Some t ∧ p ∈ map Js.trim (Re.split t reBlankLines)) ∧
  (∀ question fullText focusKeywords options p,
     p ∈ extractTopHandbookPassagesFocused question fullText focusKeywords options →
     p ≠ "" ∧
     ∃ t, fullText = Some t ∧ p ∈ map Js.trim (Re.split t reBlankLines)).
Proof.
  split.
  - intros question fullText options p
      (qs & t & _ & -> & _ & _ & _ & Hp)%extractTopHandbookPassages_elem.
    unfold paragraphs in Hp. apply list_elem_of_filter in Hp as [Hlen Hp].
    split; [done|]. by exists t.
  - intros question fullText focusKeywords options p
      (t & -> & _ & _ & Hp)%extractTopHandbookPassagesFocused_elem.
    unfold focusedParas in Hp. apply list_elem_of_filter in Hp as [Hne Hp].
    split; [by intros ->|]. by exists t.
Qed.

Lemma ranker_paragraph_filter_witness :
  (40 ≤ Js.strlen "Dress code: students wear the school uniform every day.") ∧
  "Dress code." ≠ "".
Proof.
  split.
  - refine (proj1 (proj1 ranker_paragraph_filter (Some "What is the dress code?")
                     (Some sampleHandbook) noOptions _ _)).
    apply (bool_decide_eq_true_1 _). vm_compute. reflexivity.
  - refine (proj1 (proj2 ranker_paragraph_filter (Some "dress") (Some "Dress code.")
                     [] noOptions _ _)).
    apply (bool_decide_eq_true_1 _). vm_compute. reflexivity.
Defined.

(** A paragraph of eleven code units is returned by the focused ranker. *)
Lemma focused_short_passage_counterexample :
  extractTopHandbookPassagesFocused (Some "dress") (Some "Dress code.") [] noOptions
  = ["Dress code."] ∧
  ¬ (40 ≤ Js.strlen "Dress code.").
Proof. split; vm_compute; [reflexivity|]. intros H. by apply H. Qed.


(** ** The score of the plain ranker *)

Section ScoringFacts.
Context (qTokenSet qBigrams : gset string).

Lemma count_foldl_acc {A} (hit : A → bool) (w acc : Z) (l : list A) :
  foldl (λ acc t, if hit t then acc + w else acc) acc l
  = acc + foldl (λ acc t, if hit t then acc + w else acc) 0 l.
Proof.
  revert acc. induction l as [|x l IH]; intros acc; simpl; [lia|].
  destruct (hit x).
  - rewrite (IH (acc + w)), (IH (0 + w)). lia.
  - apply IH.
Qed.

Lemma count_foldl_nonneg {A} (hit : A → bool) (w : Z) (l : list A) :
  0 ≤ w → 0 ≤ foldl (λ acc t, if hit t then acc + w else acc) 0 l.
Proof.
  intros Hw. induction l as [|x l IH]; simpl; [lia|].
  destruct (hit x); [|done]. rewrite count_foldl_acc. lia.
Qed.















End ScoringFacts.

(** Two words that follow each other in the filtered question make a
    bigram of the question. *)
Lemma questionBigrams_adjacent (question : string) (l1 l2 : list string)
    (w1 w2 : string) :
  questionTokens question = l1 ++ w1 :: w2 :: l2 →
  (w1 +:+ " " +:+ w2) ∈ questionBigrams question.
Proof.
  intros H. unfold questionBigrams. rewrite H. apply elem_of_list_to_set.
  clear H. induction l1 as [|x l1 IH]; [by left|].
  destruct l1 as [|y l1]; simpl in *; by right.
Qed.




(** ** The classifier *)

(** The chain of tests is a search for the first rule that matches. *)
Lemma deriveQuestionCategory_first_match (q : option string) :
  deriveQuestionCategory q
  = default "general"
      (snd <$> find (λ r, Re.test r.1 (Js.toLowerCase (default "" q)))
                 classifierRules).
Proof.
  unfold deriveQuestionCategory, classifierRules. simpl.
  repeat (match goal with
          | |- context [Re.test ?r ?t] => destruct (Re.test r t); [reflexivity|]
          end).
  reflexivity.
Qed.

(** C5.  For every question, and for an absent one, the classifier
    returns a category, and exactly one, of the twelve of the data model:
    the category of the first rule of the chain whose pattern is found in
    the lower-cased question, and [general] when no rule matches.  The
    result is a function of the question alone: the patterns carry no
    [g] flag, so a test leaves no state behind. *)
Theorem classifier_total (question : option string) :
  deriveQuestionCategory question ∈ categories ∧
  (exists! c, c ∈ categories ∧ deriveQuestionCategory question = c) ∧
  deriveQuestionCategory question
  = default "general"
      (snd <$> find (λ r, Re.test r.1 (Js.toLowerCase (default "" question)))
                 classifierRules) ∧
  (Forall (λ r, Re.test r.1 (Js.toLowerCase (default "" question)) = false)
     classifierRules →
   deriveQuestionCategory question = "general") ∧
  deriveQuestionCategory None = "general".
Proof.
  assert (Hin : deriveQuestionCategory question ∈ categories).
  { unfold deriveQuestionCategory.
    repeat (match goal with
            | |- context [Re.test ?r ?t] =>
                destruct (Re.test r t);
                [apply (bool_decide_eq_true_1 _); vm_compute; reflexivity|]
            end).
    apply (bool_decide_eq_true_1 _). vm_compute. reflexivity. }
  split; [done|]. split; [|split; [|split]].
  - exists (deriveQuestionCategory question). split; [done|].
    by intros c [_ <-].
  - apply deriveQuestionCategory_first_match.
  - intros Hall. rewrite deriveQuestionCategory_first_match.
    induction Hall as [|r l Hr Hl IH]; [done|].
    simpl. by rewrite Hr.
  - vm_compute. reflexivity.
Qed.

(** C6.  The lower-cased question holds both "dress" and "category b":
    the dress-code rule and the category-B rule both match, and the
    dress-code rule, which is tested first, decides. *)
Theorem classifier_precedence :
  deriveQuestionCategory (Some "what happens if I violate the dress code category b")
  = "dressCode" ∧
  Re.test reDressCode
    (Js.toLowerCase "what happens if I violate the dress code category b") = true ∧
  Re.test reMajorB
    (Js.toLowerCase "what happens if I violate the dress code category b") = true.
Proof. repeat split; vm_compute; reflexivity. Qed.

(** ** The FAQ resolver *)

(** [/.*/] matches at the start of every string: the star may stop at
    once. *)
Lemma matchAt_reAny (s : list ascii) : is_Some (Re.matchAt reAny s).
Proof.
  unfold Re.matchAt. simpl.
  destruct s as [|c s]; [by eexists|].
  destruct (Js.isDot c); [|by eexists].
  match goal with
  | |- is_Some (match ?X with _ => _ end) => destruct X
  end; by eexists.
Qed.

Lemma test_reAny (question : string) : Re.test reAny question = true.
Proof.
  unfold Re.test.
  destruct (Js.chars question) as [|c l]; unfold Re.search.
  - by destruct (matchAt_reAny []) as [? ->].
  - by destruct (matchAt_reAny (c :: l)) as [? ->].
Qed.

Lemma CHATBOT_FAQ_dressCode : CHATBOT_FAQ !! "dressCode" = Some dressCodeEntry.
Proof. unfold CHATBOT_FAQ. by rewrite list_to_map_cons, lookup_insert_eq. Qed.

Lemma CHATBOT_FAQ_attendance : CHATBOT_FAQ !! "attendance" = Some attendanceEntry.
Proof.
  unfold CHATBOT_FAQ.
  rewrite list_to_map_cons, lookup_insert_ne by done.
  by rewrite list_to_map_cons, lookup_insert_eq.
Qed.

Lemma CHATBOT_FAQ_violations : CHATBOT_FAQ !! "violations" = Some violationsEntry.
Proof.
  unfold CHATBOT_FAQ.
  rewrite list_to_map_cons, lookup_insert_ne by done.
  rewrite list_to_map_cons, lookup_insert_ne by done.
  by rewrite list_to_map_cons, lookup_insert_eq.
Qed.

Lemma CHATBOT_FAQ_other (c : string) :
  c ∉ faqCategories → CHATBOT_FAQ !! c = None.
Proof.
  intros Hc. apply not_elem_of_list_to_map_1. simpl. exact Hc.
Qed.

Lemma dressCode_answer (question : string) :
  getFAQAnswer "dressCode" question
  = Some (if Re.test reDressSanctions question then dressSanctionsAnswer
          else if Re.test reWhatIsDressCode question then dressCodeAnswer
          else dressHighlightsAnswer).
Proof.
  unfold getFAQAnswer. rewrite CHATBOT_FAQ_dressCode.
  unfold dressCodeEntry. cbn [faqs find q a].
  destruct (Re.test reDressSanctions question); [done|].
  destruct (Re.test reWhatIsDressCode question); [done|].
  by rewrite test_reAny.
Qed.

Lemma attendance_answer (question : string) :
  getFAQAnswer "attendance" question = Some attendanceAnswer.
Proof.
  unfold getFAQAnswer. rewrite CHATBOT_FAQ_attendance.
  unfold attendanceEntry. cbn [faqs find q a]. by rewrite test_reAny.
Qed.

Lemma violations_answer (question : string) :
  getFAQAnswer "violations" question = Some violationsAnswer.
Proof.
  unfold getFAQAnswer. rewrite CHATBOT_FAQ_violations.
  unfold violationsEntry. cbn [faqs find q a]. by rewrite test_reAny.
Qed.

Lemma faq_entries (c : string) (entry : FaqEntry) :
  CHATBOT_FAQ !! c = Some entry →
  (c, entry) ∈ [("dressCode", dressCodeEntry); ("attendance", attendanceEntry);
                ("violations", violationsEntry)].
Proof. apply elem_of_list_to_map_2. Qed.

(** C1 (as amended).  [CHATBOT_FAQ] has an entry for three of the twelve
    categories: dressCode, attendance and violations.  The rule list of
    each of them ends in the pattern that matches everything, so for these
    three categories [getFAQAnswer] returns an answer that is not empty,
    for every question.  For the nine other categories there is no entry
    and [getFAQAnswer] returns null. *)
Theorem faq_fallback (question : string) :
  (∀ c, c ∈ faqCategories →
     ∃ answer, getFAQAnswer c question = Some answer ∧ answer ≠ "") ∧
  (∀ c, c ∈ categories → c ∉ faqCategories → getFAQAnswer c question = None) ∧
  filter (λ c, c ∉ faqCategories) categories
  = ["minorOffenses"; "majorOffensesA"; "majorOffensesB"; "categoryC"; "bullying";
     "appeals"; "suspension"; "expulsion"; "general"] ∧
  (∀ c entry, CHATBOT_FAQ !! c = Some entry →
     c ∈ faqCategories ∧ q <$> last (faqs entry) = Some reAny).
Proof.
  split; [|split; [|split; [vm_compute; reflexivity|]]].
  - intros c Hc. unfold faqCategories in Hc.
    repeat (apply elem_of_cons in Hc as [->|Hc]); [| | |by apply elem_of_nil in Hc].
    + rewrite dressCode_answer. eexists. split; [done|].
      destruct (Re.test reDressSanctions question); [done|].
      by destruct (Re.test reWhatIsDressCode question).
    + rewrite attendance_answer. by eexists.
    + rewrite violations_answer. by eexists.
  - intros c _ Hn. unfold getFAQAnswer. by rewrite CHATBOT_FAQ_other.
  - intros c entry H%faq_entries.
    repeat (apply elem_of_cons in H as [[= -> ->]|H]);
      try (by apply elem_of_nil in H);
      (split; [apply (bool_decide_eq_true_1 _); vm_compute; reflexivity
              |reflexivity]).
Qed.

(** The classifier returns [general] for the empty question, and the
    table has no entry for it. *)
Lemma faq_fallback_counterexample :
  deriveQuestionCategory (Some "") = "general" ∧
  getFAQAnswer "general" "" = None.
Proof. split; vm_compute; reflexivity. Qed.

(** ** The endpoints *)

Lemma chatbotAsk_question (qs : string) (pdf : Outcome (option string)) :
  Js.truthy qs = true →
  ∀ handbookText,
    handbookText
    = match pdf with
      | Throws _ => ""
      | Returns data =>
          Js.join blankLine
            (extractTopHandbookPassagesFocused (Some qs) (Some (default "" data))
               (default [] (keywords <$> CHATBOT_FAQ !! deriveQuestionCategory (Some qs)))
               {| maxPassages := Some 2; minLen := None |})
      end →
    chatbotAsk (Some qs) pdf
    = {| status := 200;
         body := ChatBody
                   (orElse (getFAQAnswer (deriveQuestionCategory (Some qs)) qs)
                      (orElse (Some handbookText) notFoundMessage))
                   (getSuggestionsForCategory (deriveQuestionCategory (Some qs)))
                   (deriveQuestionCategory (Some qs))
                   (match orNull (getFAQAnswer (deriveQuestionCategory (Some qs)) qs) with
                    | Some _ => "FAQ"
                    | None => "Student Handbook"
                    end) |}.
Proof. intros Hq handbookText ->. unfold chatbotAsk. by rewrite Hq. Qed.

(** C8.  For the question "What is the dress code?" the classifier
    returns dressCode; the sanctions pattern, which is the first rule of
    that category, does not match and the pattern of the second rule does;
    whatever the reading of the handbook gives, [POST /api/chatbot/ask]
    answers with status 200, source "FAQ", category dressCode and the text
    of the second rule, which begins with "Students must be presentable
    and modest.". *)
Theorem dress_code_scenario (pdf : Outcome (option string)) :
  deriveQuestionCategory (Some "What is the dress code?") = "dressCode" ∧
  Re.test reDressSanctions "What is the dress code?" = false ∧
  Re.test reWhatIsDressCode "What is the dress code?" = true ∧
  getFAQAnswer "dressCode" "What is the dress code?" = Some dressCodeAnswer ∧
  chatbotAsk (Some "What is the dress code?") pdf
  = {| status := 200;
       body := ChatBody dressCodeAnswer
                 ["What is the dress code?"; "What are the grooming rules?";
                  "What happens if I violate dress code?"]
                 "dressCode" "FAQ" |} ∧
  ∃ rest, dressCodeAnswer = "Students must be presentable and modest." +:+ rest.
Proof.
  assert (Hcat : deriveQuestionCategory (Some "What is the dress code?") = "dressCode")
    by (vm_compute; reflexivity).
  assert (H1 : Re.test reDressSanctions "What is the dress code?" = false)
    by (vm_compute; reflexivity).
  assert (H2 : Re.test reWhatIsDressCode "What is the dress code?" = true)
    by (vm_compute; reflexivity).
  assert (Hfaq : getFAQAnswer "dressCode" "What is the dress code?" = Some dressCodeAnswer)
    by (by rewrite dressCode_answer, H1, H2).
  split; [exact Hcat|]. split; [exact H1|]. split; [exact H2|].
  split; [exact Hfaq|]. split.
  - erewrite chatbotAsk_question; [|reflexivity|reflexivity].
    rewrite Hcat, Hfaq. reflexivity.
  - eexists. reflexivity.
Qed.

Lemma checkRateLimit_throws (now : Z) (requestCounts : gmap Z Z) :
  MAX_REQUESTS_PER_WINDOW ≤ currentRequests (cleanOld now requestCounts) →
  checkRateLimit now requestCounts
  = (cleanOld now requestCounts, Throws rateLimitMessage).
Proof.
  intros H. unfold checkRateLimit.
  by rewrite (proj2 (Z.leb_le _ _) H).
Qed.

Lemma checkRateLimit_returns (now : Z) (requestCounts : gmap Z Z) :
  currentRequests (cleanOld now requestCounts) < MAX_REQUESTS_PER_WINDOW →
  ∃ counts, checkRateLimit now requestCounts = (counts, Returns ()).
Proof.
  intros H. unfold checkRateLimit.
  rewrite (proj2 (Z.leb_gt _ _) H). by eexists.
Qed.

(** C9 (as amended).  When the handbook cannot be read,
    [POST /api/ask-handbook] answers a question that is not blank with
    status 500, and with the message of the failure when the rate limit
    lets the request through.  [POST /api/chatbot/ask] catches the failure
    where it reads the handbook: it never answers 500; a question that is
    a string and not empty gets status 200 with the FAQ answer of its
    category, or the "not found" text when there is none. *)
Theorem unreadable_handbook (message : string) :
  (∀ now requestCounts question,
     isBlank question = false →
     status (askHandbook now requestCounts question (Throws message)).2 = 500) ∧
  (∀ now requestCounts question,
     isBlank question = false →
     currentRequests (cleanOld now requestCounts) < MAX_REQUESTS_PER_WINDOW →
     (askHandbook now requestCounts question (Throws message)).2
     = {| status := 500; body := ErrorBody message |}) ∧
  (∀ question, status (chatbotAsk question (Throws message)) ≠ 500) ∧
  (∀ qs,
     Js.truthy qs = true →
     chatbotAsk (Some qs) (Throws message)
     = {| status := 200;
          body := ChatBody
                    (orElse (getFAQAnswer (deriveQuestionCategory (Some qs)) qs)
                       notFoundMessage)
                    (getSuggestionsForCategory (deriveQuestionCategory (Some qs)))
                    (deriveQuestionCategory (Some qs))
                    (match orNull (getFAQAnswer (deriveQuestionCategory (Some qs)) qs) with
                     | Some _ => "FAQ"
                     | None => "Student Handbook"
                     end) |}).
Proof.
  split; [|split; [|split]].
  - intros now requestCounts question Hq. unfold askHandbook.
    destruct (checkRateLimit now requestCounts) as [counts [[]|msg]]; [|done].
    by rewrite Hq.
  - intros now requestCounts question Hq Hlim. unfold askHandbook.
    destruct (checkRateLimit_returns now requestCounts Hlim) as [counts ->].
    by rewrite Hq.
  - intros [qs|]; [|done]. unfold chatbotAsk.
    by destruct (Js.truthy qs).
  - intros qs Hq.
    by rewrite (chatbotAsk_question qs (Throws message) Hq "" eq_refl).
Qed.

Lemma unreadable_handbook_witness :
  status (askHandbook 1000 ∅ (Some "What is the dress code?") (Throws "ENOENT")).2
  = 500.
Proof.
  refine (proj1 (unreadable_handbook "ENOENT") 1000 ∅
            (Some "What is the dress code?") _).
  vm_compute. reflexivity.
Defined.

(** The failure of the read is caught inside the handler: the answer of
    the FAQ is sent with status 200. *)
Lemma chatbot_unreadable_handbook_counterexample :
  chatbotAsk (Some "What is the dress code?") (Throws "ENOENT")
  = {| status := 200;
       body := ChatBody dressCodeAnswer
                 ["What is the dress code?"; "What are the grooming rules?";
                  "What happens if I violate dress code?"]
                 "dressCode" "FAQ" |} ∧
  status (chatbotAsk (Some "What is the dress code?") (Throws "ENOENT")) ≠ 500.
Proof. split; vm_compute; [reflexivity|discriminate]. Qed.

(** C10.  [POST /api/ask-handbook] calls [checkRateLimit] before it looks
    at the question.  For a request whose question is missing or blank:
    when the counts that are left after the old entries are deleted add up
    to 10 or more, [checkRateLimit] throws and the response is 500 with
    the message of the rate limit; when they add up to less, the response
    is 400 "Question is required.". *)
Theorem rate_limit_before_validation
    (now : Z) (requestCounts : gmap Z Z) (question : option string)
    (pdf : Outcome (option string)) :
  isBlank question = true →
  (MAX_REQUESTS_PER_WINDOW ≤ currentRequests (cleanOld now requestCounts) →
   (checkRateLimit now requestCounts).2 = Throws rateLimitMessage ∧
   (askHandbook now requestCounts question pdf).2
   = {| status := 500; body := ErrorBody rateLimitMessage |}) ∧
  (currentRequests (cleanOld now requestCounts) < MAX_REQUESTS_PER_WINDOW →
   (checkRateLimit now requestCounts).2 = Returns () ∧
   (askHandbook now requestCounts question pdf).2
   = {| status := 400; body := ErrorBody "Question is required." |}).
Proof.
  intros Hq. split; intros Hlim.
  - unfold askHandbook. by rewrite (checkRateLimit_throws _ _ Hlim).
  - unfold askHandbook.
    destruct (checkRateLimit_returns now requestCounts Hlim) as [counts ->].
    by rewrite Hq.
Qed.

Lemma rate_limit_before_validation_witness :
  (askHandbook 61000 {[ 60000 := 10 ]} (Some " ") (Returns (Some sampleHandbook))).2
  = {| status := 500; body := ErrorBody rateLimitMessage |} ∧
  (askHandbook 61000 {[ 0 := 10 ]} (Some " ") (Returns (Some sampleHandbook))).2
  = {| status := 400; body := ErrorBody "Question is required." |}.
Proof.
  split.
  - refine (proj2 (proj1 (rate_limit_before_validation 61000 {[ 60000 := 10 ]}
                            (Some " ") (Returns (Some sampleHandbook)) _) _)).
    + vm_compute. reflexivity.
    + vm_compute. discriminate.
  - refine (proj2 (proj2 (rate_limit_before_validation 61000 {[ 0 := 10 ]}
                            (Some " ") (Returns (Some sampleHandbook)) _) _)).
    + vm_compute. reflexivity.
    + vm_compute. reflexivity.
Defined.

(** * More properties *)

(** ** The matcher and the strings of a pattern *)

Section MatcherSpec.
Context (i : bool).

(** The matcher succeeds exactly when a prefix of the string is matched by
    the pattern and the continuation accepts what is left. *)
Lemma bt_sound (n : nat) :
  ∀ (r : Re.regex) (s : list ascii) (k : list ascii → option (list ascii)),
    is_Some (Re.bt i n r s k) →
    ∃ s1 s2, s = s1 ++ s2 ∧ matches i r s1 ∧ is_Some (k s2).
Proof.
  induction n as [n IHn] using lt_wf_ind.
  induction r as [|c|p|a IHa b IHb|a IHa b IHb|a IHa];
    intros s k; rewrite bt_unfold.
  - intros H. exists [], s. repeat split; [constructor|done].
  - destruct s as [|x s']; [by intros [? [=]]|].
    destruct (Re.chrMatch i c x) eqn:Hc; [|by intros [? [=]]].
    intros H. exists [x], s'. repeat split; [by constructor|done].
  - destruct s as [|x s']; [by intros [? [=]]|].
    destruct (p x) eqn:Hp; [|by intros [? [=]]].
    intros H. exists [x], s'. repeat split; [by constructor|done].
  - intros (s1 & s2 & -> & Ha & (s3 & s4 & -> & Hb & Hk)%IHb)%IHa.
    exists (s1 ++ s3), s4. rewrite <- (assoc_L (++)).
    repeat split; [by constructor|done].
  - destruct (Re.bt i n a s k) eqn:Ha.
    + intros _. destruct (IHa s k) as (s1 & s2 & -> & Hm & Hk); [by rewrite Ha|].
      exists s1, s2. repeat split; [by apply matches_alt_l|done].
    + intros (s1 & s2 & -> & Hm & Hk)%IHb.
      exists s1, s2. repeat split; [by apply matches_alt_r|done].
  - destruct n as [|n']; [by intros [? [=]]|].
    destruct (Re.bt i (S n') a s _) eqn:Ha.
    + intros _.
      edestruct (IHa s) as (s1 & s2 & -> & Hm & Hk); [by rewrite Ha|].
      cbv beta in Hk.
      destruct (Nat.ltb_spec (length s2) (length (s1 ++ s2))) as [Hlt|];
        [|by destruct Hk as [? [=]]].
      apply IHn in Hk as (s3 & s4 & -> & Hs & Hk); [|lia].
      exists (s1 ++ s3), s4. rewrite <- (assoc_L (++)).
      repeat split; [|done].
      apply matches_star_cons; [|done|done].
      intros ->. simpl in Hlt. lia.
    + intros H. exists [], s. repeat split; [constructor|done].
Qed.

Lemma bt_complete (r : Re.regex) (s1 : list ascii) :
  matches i r s1 →
  ∀ (n : nat) (s2 : list ascii) (k : list ascii → option (list ascii)),
    (length (s1 ++ s2) < n)%nat → is_Some (k s2) →
    is_Some (Re.bt i n r (s1 ++ s2) k).
Proof.
  induction 1 as [|c x Hc|p x Hp|a b s1 s1' Ha IHa Hb IHb|a b s Ha IHa
                  |a b s Hb IHb|a|a s1 s1' Hne Ha IHa Hs IHs];
    intros n s2 k Hn Hk; rewrite bt_unfold.
  - done.
  - simpl. by rewrite Hc.
  - simpl. by rewrite Hp.
  - rewrite <- (assoc_L (++)). apply IHa; [by rewrite (assoc_L (++))|].
    apply IHb; [|done]. rewrite <- (assoc_L (++)), length_app in Hn. lia.
  - destruct (IHa n s2 k Hn Hk) as [e ->]. by eexists.
  - destruct (Re.bt i n a (s ++ s2) k); [by eexists|]. by apply IHb.
  - destruct n as [|n']; [simpl in Hn; lia|].
    destruct (Re.bt i (S n') a ([] ++ s2) _); [by eexists|done].
  - destruct n as [|n']; [lia|].
    rewrite <- (assoc_L (++)).
    edestruct (IHa (S n') (s1' ++ s2)) as [e ->];
      [by rewrite (assoc_L (++))| |by eexists].
    cbv beta.
    destruct (Nat.ltb_spec (length (s1' ++ s2)) (length (s1 ++ s1' ++ s2)))
      as [Hlt|Hge].
    + apply IHs; [|done]. rewrite !length_app in *. lia.
    + rewrite length_app in Hge. destruct s1; [done|]. simpl in Hge. lia.
Qed.

End MatcherSpec.

Lemma matchAt_spec (re : Re.RegExp) (s : list ascii) :
  is_Some (Re.matchAt re s)
  ↔ ∃ s1 s2, s = s1 ++ s2 ∧ matches (Re.ignoreCase re) (Re.source re) s1.
Proof.
  unfold Re.matchAt. split.
  - intros (s1 & s2 & -> & Hm & _)%bt_sound. by exists s1, s2.
  - intros (s1 & s2 & -> & Hm). apply bt_complete; [done|lia|done].
Qed.

(** [test] finds a pattern exactly in the strings that hold a piece that
    the pattern matches. *)
Lemma search_spec (re : Re.RegExp) (s : list ascii) :
  Re.search re s = true
  ↔ ∃ pre mid post, s = pre ++ mid ++ post
                    ∧ matches (Re.ignoreCase re) (Re.source re) mid.
Proof.
  induction s as [|c s IH].
  - simpl. destruct (Re.matchAt re []) eqn:Hm.
    + split; [intros _|done].
      destruct (proj1 (matchAt_spec re [])) as (s1 & s2 & Hs & H); [by rewrite Hm|].
      by exists [], s1, s2.
    + split; [done|]. intros (pre & mid & post & Hs & H).
      symmetry in Hs. apply app_eq_nil in Hs as [-> Hs].
      assert (is_Some (Re.matchAt re [])) as [? Hx]; [|congruence].
      apply matchAt_spec. by exists mid, post.
  - simpl. destruct (Re.matchAt re (c :: s)) eqn:Hm.
    + split; [intros _|done].
      destruct (proj1 (matchAt_spec re (c :: s))) as (s1 & s2 & Hs & H);
        [by rewrite Hm|].
      by exists [], s1, s2.
    + rewrite IH. split.
      * intros (pre & mid & post & -> & H). by exists (c :: pre), mid, post.
      * intros (pre & mid & post & Hs & H). destruct pre as [|c' pre].
        -- assert (is_Some (Re.matchAt re (c :: s))) as [? Hx]; [|congruence].
           apply matchAt_spec. exists mid, post. by rewrite Hs.
        -- injection Hs as -> ->. by exists pre, mid, post.
Qed.

Lemma isPrefix_spec (p s : list ascii) :
  Js.isPrefix p s = true ↔ ∃ post, s = p ++ post.
Proof.
  revert s. induction p as [|a p IH]; intros s; simpl.
  - split; [by exists s|done].
  - destruct s as [|b s]; [split; [done|by intros [? [=]]]|].
    rewrite andb_true_iff, IH. split.
    + intros [->%Ascii.eqb_eq [post ->]]. by exists post.
    + intros [post [= -> ->]]. split; [apply Ascii.eqb_refl|by exists post].
Qed.

Lemma includesChars_spec (s p : list ascii) :
  Js.includesChars s p = true ↔ ∃ pre post, s = pre ++ p ++ post.
Proof.
  induction s as [|c s IH]; simpl.
  - rewrite orb_false_r, isPrefix_spec. split.
    + intros [post H]. by exists [], post.
    + intros (pre & post & H). symmetry in H.
      apply app_eq_nil in H as [-> H]. by exists post.
  - rewrite orb_true_iff, isPrefix_spec, IH. split.
    + intros [[post H]|(pre & post & ->)].
      * by exists [], post.
      * by exists (c :: pre), post.
    + intros (pre & post & H). destruct pre as [|c' pre].
      * left. by exists post.
      * right. injection H as -> ->. by exists pre, post.
Qed.

Lemma matches_LitChars (l s : list ascii) :
  matches false (Re.LitChars l) s ↔ s = l.
Proof.
  revert s. induction l as [|c l IH]; intros s.
  - split; [by inversion 1|intros ->; constructor].
  - destruct l as [|c' l].
    + split.
      * inversion 1 as [|? ? Hc| | | | | |]; subst.
        by apply Ascii.eqb_eq in Hc as ->.
      * intros ->. constructor. apply Ascii.eqb_refl.
    + change (Re.LitChars (c :: c' :: l))
        with (Re.Cat (Re.Chr c) (Re.LitChars (c' :: l))).
      split.
      * inversion 1 as [| | |? ? s1 s2 H1 H2| | | |]; subst.
        apply IH in H2 as ->.
        inversion H1 as [|? ? Hc| | | | | |]; subst.
        by apply Ascii.eqb_eq in Hc as ->.
      * intros ->. apply (matches_cat false _ _ [c] (c' :: l)).
        -- constructor. apply Ascii.eqb_refl.
        -- by apply IH.
Qed.

Lemma matches_AltOf (i : bool) (l : list Re.regex) (s : list ascii) :
  matches i (Re.AltOf l) s ↔ ∃ r, r ∈ l ∧ matches i r s.
Proof.
  induction l as [|r l IH].
  - split; [|by intros (r & ?%elem_of_nil & _)].
    by inversion 1.
  - destruct l as [|r' l].
    + split.
      * intros H. exists r. split; [by left|done].
      * intros (r0 & ->%list_elem_of_singleton & H). done.
    + change (Re.AltOf (r :: r' :: l)) with (Re.Alt r (Re.AltOf (r' :: l))).
      split.
      * inversion 1; subst.
        -- exists r. split; [by left|done].
        -- destruct (proj1 IH) as (r0 & Hr0 & Hm); [done|].
           exists r0. split; [by right|done].
      * intros (r0 & Hr0 & Hm). apply elem_of_cons in Hr0 as [->|Hr0].
        -- by apply matches_alt_l.
        -- apply matches_alt_r, IH. by exists r0.
Qed.

(** A pattern that is a list of words, without the [i] flag, is found in
    the strings that hold one of the words. *)
Lemma test_words (ws : list string) (text : string) :
  Re.test (words false (Re.Lit <$> ws)) text = true
  ↔ ∃ w, w ∈ ws ∧ Js.includes text w = true.
Proof.
  unfold Re.test, Js.includes. rewrite search_spec. simpl. split.
  - intros (pre & mid & post & Hs & (r & Hr & Hm)%matches_AltOf).
    apply list_elem_of_fmap in Hr as (w & -> & Hw).
    apply matches_LitChars in Hm as ->.
    exists w. split; [done|]. apply includesChars_spec. by exists pre, post.
  - intros (w & Hw & (pre & post & Hs)%includesChars_spec).
    exists pre, (Js.chars w), post. split; [done|].
    apply matches_AltOf. exists (Re.Lit w). split.
    + apply list_elem_of_fmap. by exists w.
    + by apply matches_LitChars.
Qed.

(** X1: the classifier looks for its keywords anywhere in the lower-cased
    question, inside longer words too.  The answer is dressCode exactly
    when one of dress, uniform, groom, hair, attire is in it, whatever
    else it holds; it is attendance exactly when none of them is and one
    of attend, absen, tardy, late is. *)
Theorem classifier_keywords (question : option string) :
  (deriveQuestionCategory question = "dressCode"
   ↔ ∃ w, w ∈ ["dress"; "uniform"; "groom"; "hair"; "attire"]
          ∧ Js.includes (Js.toLowerCase (default "" question)) w = true) ∧
  (deriveQuestionCategory question = "attendance"
   ↔ (∀ w, w ∈ ["dress"; "uniform"; "groom"; "hair"; "attire"] →
           Js.includes (Js.toLowerCase (default "" question)) w = false)
     ∧ ∃ w, w ∈ ["attend"; "absen"; "tardy"; "late"]
            ∧ Js.includes (Js.toLowerCase (default "" question)) w = true).
Proof.
  pose proof (test_words ["dress"; "uniform"; "groom"; "hair"; "attire"]
                (Js.toLowerCase (default "" question))) as Hd.
  pose proof (test_words ["attend"; "absen"; "tardy"; "late"]
                (Js.toLowerCase (default "" question))) as Ha.
  change (words false (Re.Lit <$> ["dress"; "uniform"; "groom"; "hair"; "attire"]))
    with reDressCode in Hd.
  change (words false (Re.Lit <$> ["attend"; "absen"; "tardy"; "late"]))
    with reAttendance in Ha.
  unfold deriveQuestionCategory.
  destruct (Re.test reDressCode _).
  - apply proj1 in Hd. specialize (Hd eq_refl). split.
    + split; [done|done].
    + split; [done|]. intros [Hno _]. destruct Hd as (w & Hw & Hi).
      rewrite (Hno w Hw) in Hi. done.
  - apply proj2 in Hd.
    assert (Hno : ∀ w, w ∈ ["dress"; "uniform"; "groom"; "hair"; "attire"] →
                       Js.includes (Js.toLowerCase (default "" question)) w = false).
    { intros w Hw. destruct (Js.includes _ w) eqn:Hi; [|done].
      assert (false = true) as [=]. apply Hd. by exists w. }
    split.
    + split.
      * intros H. exfalso. revert H.
        repeat (match goal with
                | |- context [Re.test ?r ?t] => destruct (Re.test r t)
                end; [done|]).
        done.
      * intros (w & Hw & Hi). rewrite (Hno w Hw) in Hi. done.
    + destruct (Re.test reAttendance _).
      * apply proj1 in Ha. specialize (Ha eq_refl). done.
      * apply proj2 in Ha. split.
        -- intros H. exfalso. revert H.
           repeat (match goal with
                   | |- context [Re.test ?r ?t] => destruct (Re.test r t)
                   end; [done|]).
           done.
        -- intros [_ Hw]. apply Ha in Hw. done.
Qed.

(** ** The tokens of the plain ranker *)

Lemma chars_str (l : list ascii) : Js.chars (Js.str l) = l.
Proof. apply list_ascii_of_string_of_list_ascii. Qed.

Lemma str_chars (s : string) : Js.str (Js.chars s) = s.
Proof. apply string_of_list_ascii_of_string. Qed.

Lemma chars_append (s1 s2 : string) :
  Js.chars (s1 +:+ s2) = Js.chars s1 ++ Js.chars s2.
Proof. induction s1 as [|c s1 IH]; simpl; [done|]. by rewrite IH. Qed.

Lemma dropSpaces_Forall (P : ascii → Prop) (l : list ascii) :
  Forall P l → Forall P (Js.dropSpaces l).
Proof.
  induction 1 as [|c l Hc Hl IH]; simpl; [constructor|].
  destruct (Js.isSpace c); [done|by constructor].
Qed.

Lemma trimChars_Forall (P : ascii → Prop) (l : list ascii) :
  Forall P l → Forall P (Js.trimChars l).
Proof.
  intros H. unfold Js.trimChars.
  by apply Forall_rev, dropSpaces_Forall, Forall_rev, dropSpaces_Forall.
Qed.

Lemma collapseSpaces_Forall (inRun : bool) (l : list ascii) :
  Forall (λ c, Js.isLowerAlnum c = true ∨ Js.isSpace c = true) l →
  Forall (λ c, Js.isLowerAlnum c = true ∨ c = " "%char) (collapseSpaces inRun l).
Proof.
  intros H. revert inRun. induction H as [|c l Hc Hl IH]; intros inRun; simpl.
  - constructor.
  - destruct (Js.isSpace c) eqn:Hs.
    + destruct inRun; [apply IH|]. constructor; [by right|apply IH].
    + constructor; [|apply IH]. destruct Hc as [?|?]; [by left|congruence].
Qed.

Lemma splitOn_Forall (P : ascii → Prop) (sep : ascii) (s acc : list ascii) :
  Forall P s → Forall (λ c, P c ∧ c ≠ sep) acc →
  Forall (Forall (λ c, P c ∧ c ≠ sep)) (Js.splitOn sep acc s).
Proof.
  intros Hs. revert acc. induction Hs as [|c s Hc Hs IH]; intros acc Hacc; simpl.
  - constructor; [by apply Forall_rev|constructor].
  - destruct (Ascii.eqb_spec c sep) as [->|Hne].
    + constructor; [by apply Forall_rev|]. by apply IH.
    + apply IH. by constructor.
Qed.

(** A word of a normalized text is made of the code units a-z and 0-9. *)
Lemma normalize_words (s t : string) :
  t ∈ Js.split (normalize s) " " →
  Forall (λ c, Js.isLowerAlnum c = true) (Js.chars t).
Proof.
  unfold Js.split. intros (l & -> & Hl)%list_elem_of_fmap. rewrite chars_str.
  assert (Hall : Forall (Forall (λ c, (Js.isLowerAlnum c = true ∨ c = " "%char)
                                       ∧ c ≠ " "%char))
                   (Js.splitOn " " [] (Js.chars (normalize s)))).
  { apply splitOn_Forall; [|constructor].
    unfold normalize, Js.trim. rewrite !chars_str.
    apply trimChars_Forall, collapseSpaces_Forall.
    apply Forall_fmap, Forall_forall. intros c _. simpl.
    unfold isOtherChar. destruct (Js.isLowerAlnum c) eqn:Ha; [by left|].
    destruct (Js.isSpace c) eqn:Hs; [|by right]. simpl. by right. }
  rewrite Forall_forall in Hall. specialize (Hall l Hl).
  eapply Forall_impl; [exact Hall|]. intros c [[?|?] ?]; done.
Qed.

(** X2: the words that the plain ranker compares are never empty and are
    made of the code units a-z and 0-9 only; the words of the question
    are not stop words. *)
Theorem ranker_token_alphabet (s t : string) :
  (t ∈ passageTokens s →
   t ≠ "" ∧ Forall (λ c, Js.isLowerAlnum c = true) (Js.chars t)) ∧
  (t ∈ questionTokens s →
   t ≠ "" ∧ (t ∉ stopwords) ∧ Forall (λ c, Js.isLowerAlnum c = true) (Js.chars t)).
Proof.
  split.
  - intros [Ht Hin]%list_elem_of_filter. split; [by intros ->|].
    by eapply normalize_words.
  - intros [[Ht Hs] Hin]%list_elem_of_filter. split; [by intros ->|].
    split; [done|]. by eapply normalize_words.
Qed.

Lemma token_no_space (s t : string) :
  t ∈ Js.split (normalize s) " " → (" "%char) ∉ Js.chars t.
Proof.
  intros H%normalize_words Hin. rewrite Forall_forall in H.
  specialize (H _ Hin). done.
Qed.

Lemma app_cons_inj_sep {A} (x : A) (l1 l2 r1 r2 : list A) :
  x ∉ l1 → x ∉ l2 → l1 ++ x :: r1 = l2 ++ x :: r2 → l1 = l2 ∧ r1 = r2.
Proof.
  revert l2. induction l1 as [|a l1 IH]; intros [|b l2] H1 H2 H; simpl in *.
  - by injection H.
  - injection H as <- _. exfalso. apply H2. by left.
  - injection H as -> _. exfalso. apply H1. by left.
  - injection H as -> H. apply not_elem_of_cons in H1 as [_ H1].
    apply not_elem_of_cons in H2 as [_ H2].
    destruct (IH l2 H1 H2 H) as [-> ->]. done.
Qed.

Lemma bigram_key_inj (a b a' b' : string) :
  (" "%char) ∉ Js.chars a → (" "%char) ∉ Js.chars a' →
  a +:+ " " +:+ b = a' +:+ " " +:+ b' → a = a' ∧ b = b'.
Proof.
  intros Ha Ha' H. apply (f_equal Js.chars) in H.
  rewrite !chars_append in H. simpl in H.
  apply app_cons_inj_sep in H as [H1 H2]; [|done..].
  apply (f_equal Js.str) in H1, H2. by rewrite !str_chars in H1, H2.
Qed.

Lemma bigramKeys_elem (l : list string) (bg : string) :
  bg ∈ bigramKeys l →
  ∃ a b, bg = a +:+ " " +:+ b ∧ a ∈ l ∧ b ∈ l.
Proof.
  induction l as [|a l IH]; [by intros ?%elem_of_nil|].
  destruct l as [|b l]; [by intros ?%elem_of_nil|].
  change (bigramKeys (a :: b :: l))
    with ((a +:+ " " +:+ b) :: bigramKeys (b :: l)).
  intros [->|H]%elem_of_cons.
  - exists a, b. split; [done|]. split; [by left|by right; left].
  - destruct (IH H) as (a' & b' & -> & ? & ?).
    exists a', b'. split; [done|]. split; by right.
Qed.

Lemma count_foldl_pos {A} (hit : A → bool) (w : Z) (l : list A) :
  0 < foldl (λ acc t, if hit t then acc + w else acc) 0 l →
  ∃ x, x ∈ l ∧ hit x = true.
Proof.
  induction l as [|x l IH]; simpl; [lia|].
  destruct (hit x) eqn:Hx.
  - intros _. exists x. split; [by left|done].
  - intros (y & ? & ?)%IH. exists y. split; [by right|done].
Qed.

Lemma passageScore_pos_common (question p : string) :
  0 < passageScore question p →
  ∃ w, w ∈ questionTokens question ∧ w ∈ passageTokens p.
Proof.
  unfold passageScore, tokenScore. intros H.
  destruct (decide (0 < unigramScore (questionTokenSet question) (passageTokens p)))
    as [Hu|Hu].
  { apply count_foldl_pos in Hu as (w & Hw & Hin%bool_decide_eq_true_1).
    exists w. split; [|done]. by apply elem_of_list_to_set in Hin. }
  destruct (decide (0 < bigramScore (questionBigrams question) (passageTokens p)))
    as [Hb|Hb].
  { apply count_foldl_pos in Hb as (bg & Hbg & Hin%bool_decide_eq_true_1).
    apply bigramKeys_elem in Hbg as (a & b & -> & Ha & _).
    apply elem_of_list_to_set, bigramKeys_elem in Hin as (a' & b' & Heq & Ha' & _).
    apply bigram_key_inj in Heq as [-> _].
    - by exists a'.
    - apply list_elem_of_filter in Ha as [_ Ha]. by eapply token_no_space.
    - apply list_elem_of_filter in Ha' as [_ Ha']. by eapply token_no_space. }
  assert (Hd : 0 < distinctOverlap (questionTokenSet question) (passageTokens p)) by lia.
  unfold distinctOverlap in Hd.
  destruct (filter (λ t, t ∈ questionTokenSet question) (passageTokens p))
    as [|w l] eqn:Hf; [done|].
  assert (Hw : w ∈ filter (λ t, t ∈ questionTokenSet question) (passageTokens p))
    by (rewrite Hf; by left).
  apply list_elem_of_filter in Hw as [Hq Hw].
  exists w. split; [|done]. by apply elem_of_list_to_set in Hq.
Qed.

(** X3: every passage that the plain ranker returns has a word in common
    with the question, a word of the question that is not a stop word. *)
Theorem plain_ranker_common_word
    (question fullText : option string) (options : Options) (p : string) :
  p ∈ extractTopHandbookPassages question fullText options →
  ∃ qs w, question = Some qs ∧ w ∈ questionTokens qs ∧ w ∈ passageTokens p.
Proof.
  intros (qs & t & -> & _ & _ & _ & Hpos & _)%extractTopHandbookPassages_elem.
  apply passageScore_pos_common in Hpos as (w & ? & ?). by exists qs, w.
Qed.

Lemma plain_ranker_common_word_witness :
  ∃ qs w, Some "What is the dress code?" = Some qs ∧
          w ∈ questionTokens qs ∧
          w ∈ passageTokens
                "Dress code: students wear the school uniform every day.".
Proof.
  apply (plain_ranker_common_word (Some "What is the dress code?")
           (Some sampleHandbook) noOptions).
  apply (bool_decide_eq_true_1 _). by vm_compute.
Defined.

(** X4: a question that is made of stop words and punctuation only gets no
    passage from the plain ranker, whatever the document, and
    [POST /api/ask-handbook] answers it, when the limiter lets it through
    and the handbook can be read, with the "not found" text. *)
Theorem plain_ranker_stop_words_only (qs : string) :
  questionTokens qs = [] →
  (∀ fullText options, extractTopHandbookPassages (Some qs) fullText options = []) ∧
  (∀ now requestCounts data,
     isBlank (Some qs) = false →
     currentRequests (cleanOld now requestCounts) < MAX_REQUESTS_PER_WINDOW →
     (askHandbook now requestCounts (Some qs) (Returns data)).2
     = {| status := 200; body := AnswerBody notFoundMessage |}).
Proof.
  intros Hq.
  assert (Hnone : ∀ fullText options,
            extractTopHandbookPassages (Some qs) fullText options = []).
  { intros fullText options. apply elem_of_nil_inv. intros p Hp.
    apply extractTopHandbookPassages_elem
      in Hp as (qs' & t & [= <-] & _ & _ & _ & Hpos & _).
    apply passageScore_pos_common in Hpos as (w & Hw & _).
    rewrite Hq in Hw. by apply elem_of_nil in Hw. }
  split; [done|]. intros now requestCounts data Hb Hlim. unfold askHandbook.
  destruct (checkRateLimit_returns now requestCounts Hlim) as [counts ->].
  rewrite Hb, Hnone. done.
Qed.

Lemma plain_ranker_stop_words_only_witness :
  (askHandbook 1000 ∅ (Some "Is this it?") (Returns (Some sampleHandbook))).2
  = {| status := 200; body := AnswerBody notFoundMessage |}.
Proof.
  refine (proj2 (plain_ranker_stop_words_only "Is this it?" _) 1000 ∅
            (Some sampleHandbook) _ _).
  - vm_compute. reflexivity.
  - vm_compute. reflexivity.
  - vm_compute. reflexivity.
Defined.

(** ** What the rankers keep and what they leave out *)

Lemma scoredParagraphs_text (question : string) (paras : list string) :
  text <$> scoredParagraphs question paras = paras.
Proof.
  apply list_eq. intros i. unfold scoredParagraphs.
  rewrite list_lookup_fmap, list_lookup_imap. by destruct (paras !! i).
Qed.

(** X5: the plain ranker returns paragraphs of the document, and none more
    often than it stands in the document. *)
Theorem plain_ranker_submultiset
    (question fullText : option string) (options : Options) :
  extractTopHandbookPassages question fullText options
  ⊆+ paragraphs (default "" fullText) (default 40 (minLen options)).
Proof.
  destruct question as [qs|], fullText as [t|]; simpl;
    try apply submseteq_nil_l.
  destruct (negb (Js.truthy qs) || negb (Js.truthy t)); [apply submseteq_nil_l|].
  destruct (rankedTop_sublist qs t options) as (k & Hsub & Hperm & _).
  rewrite <- (scoredParagraphs_text qs (paragraphs t (default 40 (minLen options)))).
  rewrite <- Hperm. by apply fmap_submseteq, sublist_submseteq.
Qed.

Lemma filter_all {A} (P : A → Prop) `{∀ x, Decision (P x)} (l : list A) :
  Forall P l → filter P l = l.
Proof.
  induction 1 as [|x l Hx Hl IH]; [done|].
  rewrite filter_cons, decide_True by done. by rewrite IH.
Qed.

(** X6: no paragraph is left out in favour of a worse one.  When
    [maxPassages] is not negative, a paragraph of the document with a
    score above zero is returned, unless [maxPassages] passages are
    returned that all score at least as much. *)
Theorem plain_ranker_keeps_best
    (qs t : string) (options : Options) (p : string) :
  Js.truthy qs = true → Js.truthy t = true →
  0 ≤ default 3 (maxPassages options) →
  p ∈ paragraphs t (default 40 (minLen options)) →
  0 < passageScore qs p →
  p ∈ extractTopHandbookPassages (Some qs) (Some t) options ∨
  (Z.of_nat (length (extractTopHandbookPassages (Some qs) (Some t) options))
   = default 3 (maxPassages options) ∧
   ∀ r, r ∈ extractTopHandbookPassages (Some qs) (Some t) options →
        passageScore qs p ≤ passageScore qs r).
Proof.
  intros Hq Ht Hm Hp Hpos. simpl. rewrite Hq, Ht. simpl.
  unfold rankedTop. cbv zeta.
  set (scored := scoredParagraphs qs (paragraphs t (default 40 (minLen options)))).
  set (sorted := sortByScore score scored).
  assert (Hsorted : StronglySorted (rankedBefore score idx) sorted)
    by apply sortByScore_ranked, scoredParagraphs_idx_sorted.
  assert (Hscore : ∀ s, s ∈ sorted → score s = passageScore qs (text s)).
  { intros s Hs. unfold sorted in Hs. rewrite sortByScore_perm in Hs.
    by apply scoredParagraphs_elem in Hs as [? _]. }
  apply list_elem_of_lookup in Hp as [i Hi].
  assert (Hrec : {| idx := i; score := passageScore qs p; text := p |} ∈ sorted).
  { unfold sorted. rewrite sortByScore_perm.
    apply list_elem_of_lookup. exists i. unfold scored, scoredParagraphs.
    by rewrite list_lookup_imap, Hi. }
  unfold Js.slice0. cbv zeta.
  destruct (Z.ltb_spec (default 3 (maxPassages options)) 0) as [?|_]; [lia|].
  set (k := Z.to_nat (Z.min (default 3 (maxPassages options))
                        (Z.of_nat (length sorted)))).
  rewrite <- (take_drop k sorted) in Hrec, Hsorted.
  apply elem_of_app in Hrec as [Hrec|Hrec].
  - left. apply list_elem_of_fmap.
    exists {| idx := i; score := passageScore qs p; text := p |}.
    split; [done|]. apply list_elem_of_filter. done.
  - right.
    assert (Hlen : (k < length sorted)%nat).
    { destruct (decide (k < length sorted)%nat); [done|].
      rewrite drop_ge in Hrec by lia. by apply elem_of_nil in Hrec. }
    assert (Hk : Z.of_nat k = default 3 (maxPassages options)) by (unfold k in *; lia).
    assert (Hall : Forall (λ s, passageScore qs p ≤ score s) (take k sorted)).
    { apply Forall_forall. intros s Hs.
      apply StronglySorted_app in Hsorted as (Hcross & _ & _).
      specialize (Hcross s _ Hs Hrec). apply rankedBefore_le in Hcross. done. }
    rewrite filter_all
      by (eapply Forall_impl; [exact Hall|]; intros s; simpl; lia).
    split.
    + rewrite length_fmap, length_take. lia.
    + intros r (s & -> & Hs)%list_elem_of_fmap.
      rewrite Forall_forall in Hall. specialize (Hall s Hs).
      rewrite <- (Hscore s); [done|].
      eapply elem_of_sublist; [exact Hs|apply sublist_take].
Qed.

Lemma plain_ranker_keeps_best_witness :
  "Dress code: students wear the school uniform every day."
  ∈ extractTopHandbookPassages (Some "What is the dress code?")
      (Some sampleHandbook) noOptions ∨
  (Z.of_nat (length (extractTopHandbookPassages (Some "What is the dress code?")
                       (Some sampleHandbook) noOptions))
   = default 3 (maxPassages noOptions) ∧
   ∀ r, r ∈ extractTopHandbookPassages (Some "What is the dress code?")
              (Some sampleHandbook) noOptions →
        passageScore "What is the dress code?"
          "Dress code: students wear the school uniform every day."
        ≤ passageScore "What is the dress code?" r).
Proof.
  apply (plain_ranker_keeps_best "What is the dress code?" sampleHandbook noOptions).
  - reflexivity.
  - reflexivity.
  - by vm_compute.
  - apply (bool_decide_eq_true_1 _). by vm_compute.
  - by vm_compute.
Defined.

Lemma insertByScore_descending {A} (sc : A → Z) (x : A) (l : list A) :
  StronglySorted (λ a b, sc b ≤ sc a) l →
  StronglySorted (λ a b, sc b ≤ sc a) (insertByScore sc x l).
Proof.
  induction l as [|y l IH]; simpl; intros Hs; [repeat constructor|].
  apply StronglySorted_inv in Hs as [Hs Hy].
  destruct (Z.leb_spec (sc y - sc x) 0).
  - constructor; [by constructor|]. constructor; [lia|].
    eapply Forall_impl; [exact Hy|]. intros z ?. simpl in *. lia.
  - constructor; [by apply IH|].
    rewrite insertByScore_perm. constructor; [lia|done].
Qed.

Lemma sortByScore_descending {A} (sc : A → Z) (l : list A) :
  StronglySorted (λ a b, sc b ≤ sc a) (sortByScore sc l).
Proof.
  induction l as [|x l IH]; simpl; [constructor|].
  by apply insertByScore_descending.
Qed.

Lemma focus_no_hits (lp : string) (lowerFocus : list string) (acc : Z) :
  existsb (λ k, Js.includes lp k) lowerFocus = false →
  foldl (λ acc fk, if Js.includes lp fk then acc + 1 else acc) acc lowerFocus = acc.
Proof.
  revert acc. induction lowerFocus as [|fk l IH]; simpl; intros acc H; [done|].
  apply orb_false_iff in H as [-> H]. by apply IH.
Qed.

(** X7: focus keywords that no paragraph of the document holds change
    nothing: the focused ranker answers as it does without focus
    keywords. *)
Theorem focused_ranker_fallback
    (question : option string) (t : string) (focusKeywords : list string)
    (options : Options) :
  (∀ p, p ∈ focusedParas t →
        mentionsAny (map Js.toLowerCase focusKeywords) p = false) →
  extractTopHandbookPassagesFocused question (Some t) focusKeywords options
  = extractTopHandbookPassagesFocused question (Some t) [] options.
Proof.
  intros Hno. simpl. destruct (negb (Js.truthy t)); [done|]. f_equal.
  unfold focusedTop. cbv zeta. f_equal. f_equal. f_equal.
  assert (Hpool : focusedPool (map Js.toLowerCase focusKeywords) (focusedParas t)
                  = focusedParas t).
  { unfold focusedPool. destruct (0 <? _); [|done].
    replace (filter _ (focusedParas t)) with (@nil string); [done|].
    symmetry. apply elem_of_nil_inv. intros p [Hm Hp]%list_elem_of_filter.
    rewrite (Hno p Hp) in Hm. done. }
  rewrite Hpool. simpl. apply map_ext_in. intros p Hp%list_elem_of_In.
  f_equal. unfold focusedScore. simpl. apply focus_no_hits. by apply Hno.
Qed.

Lemma focused_ranker_fallback_witness :
  extractTopHandbookPassagesFocused (Some "uniform") (Some sampleHandbook)
    ["Weapons"] noOptions
  = extractTopHandbookPassagesFocused (Some "uniform") (Some sampleHandbook)
      [] noOptions.
Proof.
  apply (focused_ranker_fallback (Some "uniform") sampleHandbook ["Weapons"]).
  intros p Hp. vm_compute in Hp.
  repeat (apply elem_of_cons in Hp as [->|Hp]; [by vm_compute|]).
  by apply elem_of_nil in Hp.
Defined.

(** X8: as soon as one paragraph holds a focus keyword, the focused ranker
    only returns paragraphs that hold one. *)
Theorem focused_ranker_filter
    (question : option string) (t : string) (focusKeywords : list string)
    (options : Options) (p0 r : string) :
  p0 ∈ focusedParas t →
  mentionsAny (map Js.toLowerCase focusKeywords) p0 = true →
  r ∈ extractTopHandbookPassagesFocused question (Some t) focusKeywords options →
  mentionsAny (map Js.toLowerCase focusKeywords) r = true.
Proof.
  intros Hp0 Hm0. simpl. destruct (negb (Js.truthy t)); [by intros ?%elem_of_nil|].
  intros ([r' n] & -> & Hin)%list_elem_of_fmap. simpl.
  unfold focusedTop in Hin. apply list_elem_of_filter in Hin as [_ Hin].
  eapply elem_of_sublist in Hin; [|apply slice0_sublist].
  rewrite sortByScore_perm in Hin.
  apply list_elem_of_fmap in Hin as (p & [= -> ->] & Hp).
  unfold focusedPool in Hp.
  destruct (0 <? _) eqn:Hlen.
  - case_bool_decide as Hnil.
    + apply length_zero_iff_nil in Hnil.
      assert (p0 ∈ filter (λ p, mentionsAny (map Js.toLowerCase focusKeywords) p = true)
                     (focusedParas t)) as Hx by (by apply list_elem_of_filter).
      rewrite Hnil in Hx. by apply elem_of_nil in Hx.
    + by apply list_elem_of_filter in Hp as [? _].
  - destruct (map Js.toLowerCase focusKeywords) as [|k l] eqn:Hlf.
    + discriminate Hm0.
    + apply Z.ltb_ge in Hlen. rewrite length_cons in Hlen. lia.
Qed.

Lemma focused_ranker_filter_witness :
  mentionsAny (map Js.toLowerCase ["Uniform"])
    "Dress code: students wear the school uniform every day." = true.
Proof.
  apply (focused_ranker_filter (Some "What is the dress code?") sampleHandbook
           ["Uniform"] noOptions
           "Dress code: students wear the school uniform every day.").
  - apply (bool_decide_eq_true_1 _). by vm_compute.
  - by vm_compute.
  - apply (bool_decide_eq_true_1 _). by vm_compute.
Defined.

Lemma question_hits_pos (lp : string) (qTokens : list string) :
  0 < foldl (λ acc t, if Js.includes lp t then acc + 2 else acc) 0 qTokens →
  ∃ w, w ∈ qTokens ∧ Js.includes lp w = true.
Proof. apply count_foldl_pos. Qed.

Lemma filter_take_descending {A} (sc : A → Z) (l : list A) :
  StronglySorted (λ a b, sc b ≤ sc a) l →
  ∀ n, filter (λ s, 0 < sc s) (take n l) = take n (filter (λ s, 0 < sc s) l).
Proof.
  induction 1 as [|x l Hl IH Hx]; intros n; [by destruct n|].
  destruct n as [|n]; [by destruct (filter _ (x :: l))|].
  cbn [take]. rewrite !filter_cons. case_decide as Hpos.
  - cbn [take]. by rewrite IH.
  - assert (Hnone : filter (λ s, 0 < sc s) l = []).
    { clear IH Hl. induction Hx as [|y l Hy _ IHx]; [done|].
      rewrite filter_cons, IHx. case_decide; [lia|done]. }
    rewrite IH, Hnone. by destruct n.
Qed.

Lemma focusedTop_length (question : option string) (t : string)
    (focusKeywords : list string) (options : Options) (bound : Z) :
  bound = match maxPassages options with
          | Some m => if m =? 0 then 3 else m
          | None => 3
          end →
  0 ≤ bound →
  Z.of_nat (length (focusedTop question t focusKeywords options))
  = Z.min bound
      (Z.of_nat
         (length
            (filter (λ p, 0 < focusedScore (focusedTokens question)
                                (map Js.toLowerCase focusKeywords) p)
               (focusedPool (map Js.toLowerCase focusKeywords) (focusedParas t))))).
Proof.
  intros -> Hb. unfold focusedTop. cbv zeta.
  set (bound := match maxPassages options with
                | Some m => if m =? 0 then 3 else m
                | None => 3
                end) in *.
  set (score := focusedScore (focusedTokens question)
                  (map Js.toLowerCase focusKeywords)).
  set (pool := focusedPool (map Js.toLowerCase focusKeywords) (focusedParas t)).
  set (sorted := sortByScore snd (map (λ p, (p, score p)) pool)).
  unfold Js.slice0. cbv zeta.
  replace (bound <? 0) with false by (symmetry; apply Z.ltb_ge; lia).
  rewrite (filter_take_descending snd) by apply sortByScore_descending.
  rewrite length_take.
  assert (Hlen : length (filter (λ s : string * Z, 0 < s.2) sorted)
                 = length (filter (λ p, 0 < score p) pool)).
  { unfold sorted.
    rewrite (Permutation_length
               (filter_Permutation _ _ _ (sortByScore_perm snd _))).
    clear. induction pool as [|p pool IH]; [done|].
    rewrite fmap_cons, !filter_cons. simpl.
    destruct (decide (0 < score p)); simpl; [f_equal|]; exact IH. }
  pose proof (length_filter (λ s : string * Z, 0 < s.2) sorted) as Hle.
  rewrite <- Hlen. lia.
Qed.

(** X9: for a question that is a string, the focused ranker reads
    [maxPassages] 0 as 3, as it reads an absent one: with [bound] for
    [maxPassages], or 3 when that is 0 or absent, and [bound] not negative,
    it returns as many passages as [bound] allows of the paragraphs of the
    pool that score above zero, [bound] of them when there are more.  It
    returns them in descending order of score, and each of them holds a
    word of the question or a focus keyword as a substring. *)
Theorem focused_ranker_bounded_sorted
    (qs : string) (fullText : option string) (focusKeywords : list string)
    (options : Options) :
  let bound := match maxPassages options with
               | Some m => if m =? 0 then 3 else m
               | None => 3
               end in
  let result :=
    extractTopHandbookPassagesFocused (Some qs) fullText focusKeywords options in
  let score :=
    focusedScore (focusedTokens (Some qs)) (map Js.toLowerCase focusKeywords) in
  let pool :=
    focusedPool (map Js.toLowerCase focusKeywords)
      (focusedParas (default "" fullText)) in
  extractTopHandbookPassagesFocused (Some qs) fullText focusKeywords
    {| maxPassages := Some 0; minLen := minLen options |}
  = extractTopHandbookPassagesFocused (Some qs) fullText focusKeywords
      {| maxPassages := Some 3; minLen := minLen options |} ∧
  (0 ≤ bound →
   Z.of_nat (length result)
   = Z.min bound (Z.of_nat (length (filter (λ p, 0 < score p) pool)))) ∧
  (0 ≤ bound → Z.of_nat (length result) ≤ bound) ∧
  StronglySorted (λ p1 p2, score p2 ≤ score p1) result ∧
  (∀ r, r ∈ result →
        (∃ w, w ∈ focusedTokens (Some qs)
              ∧ Js.includes (Js.toLowerCase r) w = true) ∨
        mentionsAny (map Js.toLowerCase focusKeywords) r = true).
Proof.
  intros bound result score pool.
  assert (Hcount : 0 ≤ bound →
            Z.of_nat (length result)
            = Z.min bound (Z.of_nat (length (filter (λ p, 0 < score p) pool)))).
  { intros Hb. unfold result, pool.
    assert (Hempty : focusedPool (map Js.toLowerCase focusKeywords)
                       (focusedParas "") = []).
    { change (focusedParas "") with (@nil string). unfold focusedPool.
      destruct (0 <? _); [|done]. by rewrite filter_nil. }
    destruct fullText as [t|];
      cbn [extractTopHandbookPassagesFocused default from_option id];
      [|rewrite Hempty; simpl; lia].
    destruct t as [|c t]; [rewrite Hempty; simpl; lia|].
    cbn [Js.truthy negb]. rewrite length_fmap.
    by apply focusedTop_length. }
  split; [|split; [done|split; [|split]]].
  - reflexivity.
  - intros Hb. rewrite Hcount by done. lia.
  - unfold result. destruct fullText as [t|]; simpl; [|constructor].
    destruct (negb (Js.truthy t)); simpl; [constructor|].
    assert (Hs : StronglySorted (λ a b : string * Z, b.2 ≤ a.2)
                   (focusedTop (Some qs) t focusKeywords options)).
    { unfold focusedTop. cbv zeta.
      eapply StronglySorted_sublist;
        [etrans; [apply sublist_filter|apply slice0_sublist]|].
      apply sortByScore_descending. }
    assert (Hsc : Forall (λ a : string * Z, a.2 = score a.1)
                    (focusedTop (Some qs) t focusKeywords options)).
    { apply Forall_forall. intros [p n] Hin.
      by apply focusedTop_elem in Hin as (_ & -> & _). }
    induction Hs as [|a l Hl IH Ha]; simpl; [constructor|].
    apply Forall_cons in Hsc as [Hsa Hsl]. constructor; [by apply IH|].
    apply Forall_fmap, Forall_forall. intros b Hb. simpl.
    rewrite Forall_forall in Ha, Hsl.
    rewrite <- Hsa, <- (Hsl b Hb). by apply Ha.
  - intros r (t & _ & _ & Hpos & _)%extractTopHandbookPassagesFocused_elem.
    unfold focusedScore in Hpos. cbv zeta in Hpos.
    destruct (decide (0 < foldl (λ acc t0, if Js.includes (Js.toLowerCase r) t0
                                          then acc + 2 else acc) 0
                          (focusedTokens (Some qs)))) as [Hq|Hq].
    + left. by apply question_hits_pos.
    + right. unfold mentionsAny. eapply focus_hits_mention.
      eapply Z.le_lt_trans; [|exact Hpos].
      pose proof (count_foldl_nonneg (λ t0, Js.includes (Js.toLowerCase r) t0) 2
                    (focusedTokens (Some qs))). lia.
Qed.

(** ** The rate limiter *)

Lemma sum_foldl (acc : Z) (l : list Z) :
  foldl (λ sum count, sum + count) acc l = acc + foldr Z.add 0 l.
Proof.
  revert acc. induction l as [|c l IH]; intros acc; simpl; [lia|].
  rewrite IH. lia.
Qed.

Lemma currentRequests_foldr (m : gmap Z Z) :
  currentRequests m = foldr Z.add 0 (snd <$> map_to_list m).
Proof. unfold currentRequests. rewrite sum_foldl. lia. Qed.

Lemma sum_perm (l k : list Z) :
  l ≡ₚ k → foldr Z.add 0 l = foldr Z.add 0 k.
Proof. induction 1; simpl; lia. Qed.

Lemma sum_submseteq (l k : list Z) :
  l ⊆+ k → Forall (λ c, 0 ≤ c) k → foldr Z.add 0 l ≤ foldr Z.add 0 k.
Proof.
  induction 1 as [|x l k H IH|x y l|x l k H IH|l k k' H1 IH1 H2 IH2];
    intros Hk; simpl.
  - lia.
  - apply Forall_cons in Hk as [_ Hk]. specialize (IH Hk). lia.
  - lia.
  - apply Forall_cons in Hk as [? Hk]. specialize (IH Hk). lia.
  - assert (Forall (λ c, 0 ≤ c) k).
    { apply Forall_forall. intros c Hc. rewrite Forall_forall in Hk.
      apply Hk. by eapply elem_of_submseteq. }
    specialize (IH1 ltac:(done)). specialize (IH2 Hk). lia.
Qed.

Lemma currentRequests_empty : currentRequests ∅ = 0.
Proof. unfold currentRequests. by rewrite map_to_list_empty. Qed.

Lemma currentRequests_insert_fresh (m : gmap Z Z) (k c : Z) :
  m !! k = None → currentRequests (<[k:=c]> m) = c + currentRequests m.
Proof.
  intros H. rewrite !currentRequests_foldr.
  by rewrite (sum_perm _ _ (fmap_Permutation snd _ _ (map_to_list_insert m k c H))).
Qed.

Lemma currentRequests_delete (m : gmap Z Z) (k c : Z) :
  m !! k = Some c → currentRequests m = c + currentRequests (delete k m).
Proof.
  intros H. rewrite !currentRequests_foldr.
  by rewrite <- (sum_perm _ _ (fmap_Permutation snd _ _ (map_to_list_delete m k c H))).
Qed.

Lemma currentRequests_singleton (k c : Z) : currentRequests {[k := c]} = c.
Proof.
  unfold currentRequests. rewrite map_to_list_singleton. simpl. lia.
Qed.

Lemma currentRequests_subseteq (m1 m2 : gmap Z Z) :
  m1 ⊆ m2 → map_Forall (λ _ c, 0 ≤ c) m2 →
  currentRequests m1 ≤ currentRequests m2.
Proof.
  intros Hsub Hpos. rewrite !currentRequests_foldr.
  apply sum_submseteq; [by apply fmap_submseteq, map_to_list_submseteq|].
  apply Forall_fmap, Forall_forall. intros [k c] Hin%elem_of_map_to_list.
  by apply (Hpos k c).
Qed.

Lemma limiterMap_nonneg (m : gmap Z Z) :
  limiterMap m → map_Forall (λ _ c, 0 ≤ c) m.
Proof. intros H k c Hk. destruct (H k c Hk). lia. Qed.

Lemma limiterMap_cleanOld (now : Z) (m : gmap Z Z) :
  limiterMap m → limiterMap (cleanOld now m).
Proof.
  intros H k c [Hk _]%map_lookup_filter_Some. by apply (H k c).
Qed.

(** The count of the minute that a returning call records. *)
Lemma checkRateLimit_records (now : Z) (m : gmap Z Z) :
  limiterMap m →
  currentRequests (cleanOld now m) < MAX_REQUESTS_PER_WINDOW →
  ∃ counts,
    checkRateLimit now m = (counts, Returns ()) ∧
    limiterMap counts ∧
    currentRequests counts = currentRequests (cleanOld now m) + 1 ∧
    counts !! (now / 60000 * 60000)
    = Some (default 0 (cleanOld now m !! (now / 60000 * 60000)) + 1).
Proof.
  intros Hm Hlt. unfold checkRateLimit. rewrite (proj2 (Z.leb_gt _ _) Hlt).
  eexists. split; [reflexivity|].
  pose proof (limiterMap_cleanOld now m Hm) as Hc.
  set (cm := now / 60000 * 60000).
  assert (Hcm : cm = cm / 60000 * 60000).
  { unfold cm. by rewrite Z.div_mul. }
  destruct (cleanOld now m !! cm) as [c|] eqn:Hlook.
  - destruct (Hc cm c Hlook) as [_ Hc1].
    rewrite (proj2 (Z.eqb_neq c 0)) by lia.
    split; [|split].
    + apply map_Forall_insert_2; [split; [done|lia]|done].
    + rewrite <- insert_delete_eq.
      rewrite currentRequests_insert_fresh by apply lookup_delete_eq.
      rewrite (currentRequests_delete _ _ _ Hlook). lia.
    + by rewrite lookup_insert_eq.
  - split; [|split].
    + apply map_Forall_insert_2; [split; [done|lia]|done].
    + rewrite currentRequests_insert_fresh by done. lia.
    + by rewrite lookup_insert_eq.
Qed.

(** X10: the limiter never holds more than ten requests.  From a map that
    the limiter has built, whatever the clock says at each call, the
    counts that are left after the calls add up to at most 10 (and the map
    is still one that the limiter builds), as long as they did before the
    calls. *)
Theorem limiter_never_above_maximum (times : list Z) (requestCounts : gmap Z Z) :
  limiterMap requestCounts →
  currentRequests requestCounts ≤ MAX_REQUESTS_PER_WINDOW →
  limiterMap (limiterRun times requestCounts).1 ∧
  currentRequests (limiterRun times requestCounts).1 ≤ MAX_REQUESTS_PER_WINDOW.
Proof.
  revert requestCounts. induction times as [|now rest IH]; intros m Hm Hle.
  - done.
  - simpl.
    assert (Hclean : currentRequests (cleanOld now m) ≤ MAX_REQUESTS_PER_WINDOW).
    { etrans; [|exact Hle].
      apply currentRequests_subseteq; [apply map_filter_subseteq|].
      by apply limiterMap_nonneg. }
    destruct (Z.lt_ge_cases (currentRequests (cleanOld now m))
                MAX_REQUESTS_PER_WINDOW) as [Hlt|Hge].
    + destruct (checkRateLimit_records now m Hm Hlt) as (counts & -> & Hc & Hs & _).
      specialize (IH counts Hc ltac:(lia)).
      by destruct (limiterRun rest counts).
    + rewrite (checkRateLimit_throws now m Hge).
      specialize (IH (cleanOld now m) (limiterMap_cleanOld now m Hm) Hclean).
      by destruct (limiterRun rest (cleanOld now m)).
Qed.

Lemma limiter_never_above_maximum_witness :
  currentRequests (limiterRun [1000; 2000; 61000] ∅).1 ≤ MAX_REQUESTS_PER_WINDOW.
Proof.
  refine (proj2 (limiter_never_above_maximum [1000; 2000; 61000] ∅ _ _)).
  - apply map_Forall_empty.
  - vm_compute. discriminate.
Defined.

Lemma currentMinute_in (minute now : Z) :
  minute = minute / 60000 * 60000 → minute ≤ now < minute + 60000 →
  now / 60000 * 60000 = minute.
Proof.
  intros Hm Hn.
  assert (Hq : now / 60000 = minute / 60000).
  { symmetry. apply (Z.div_unique now 60000 (minute / 60000) (now - minute)); lia. }
  rewrite Hq. by symmetry.
Qed.

Lemma cleanOld_keep (now : Z) (m : gmap Z Z) :
  map_Forall (λ k _, now - RATE_LIMIT_WINDOW ≤ k) m → cleanOld now m = m.
Proof.
  intros H. apply map_eq. intros k. apply option_eq. intros c.
  unfold cleanOld. rewrite map_lookup_filter_Some. split; [by intros [? _]|].
  intros Hk. split; [done|]. simpl. specialize (H k c Hk). simpl in H. lia.
Qed.

(** One call in a minute of which [j] requests were let through. *)
Lemma checkRateLimit_same_minute (minute now : Z) (j : nat) :
  minute = minute / 60000 * 60000 → minute ≤ now < minute + 60000 →
  checkRateLimit now (if decide (j = 0%nat) then ∅ else {[minute := Z.of_nat j]})
  = if decide (j < 10)%nat
    then ({[minute := Z.of_nat (S j)]}, Returns ())
    else ({[minute := Z.of_nat j]}, Throws rateLimitMessage).
Proof.
  intros Hmin Hnow.
  set (m := if decide (j = 0%nat) then ∅ else {[minute := Z.of_nat j]}).
  assert (Hclean : cleanOld now m = m).
  { apply cleanOld_keep. unfold m. case_decide; [apply map_Forall_empty|].
    apply map_Forall_singleton. unfold RATE_LIMIT_WINDOW. lia. }
  assert (Hsum : currentRequests m = Z.of_nat j).
  { unfold m. case_decide; [subst; apply currentRequests_empty|].
    apply currentRequests_singleton. }
  unfold checkRateLimit. rewrite Hclean, Hsum.
  rewrite (currentMinute_in minute now Hmin Hnow).
  unfold MAX_REQUESTS_PER_WINDOW.
  destruct (decide (j < 10)%nat) as [Hlt|Hge].
  - rewrite (proj2 (Z.leb_gt _ _)) by lia. f_equal. unfold m.
    case_decide as Hj0.
    + subst j. rewrite lookup_empty. by rewrite insert_empty.
    + rewrite lookup_singleton_eq.
      rewrite (proj2 (Z.eqb_neq _ _)) by lia.
      rewrite insert_singleton_eq. f_equal. lia.
  - rewrite (proj2 (Z.leb_le _ _)) by lia. f_equal. unfold m.
    case_decide; [lia|done].
Qed.

(** X11: in one clock minute the limiter lets the first ten calls through
    and refuses every later one.  This holds for calls on the empty map,
    at times of the same minute in any order. *)
Theorem limiter_first_ten_of_a_minute (minute : Z) (times : list Z) :
  minute = minute / 60000 * 60000 →
  Forall (λ now, minute ≤ now < minute + 60000) times →
  (limiterRun times ∅).2
  = replicate (length times `min` 10) true ++ replicate (length times - 10) false.
Proof.
  intros Hmin Htimes.
  assert (Hgen : ∀ j : nat, (j ≤ 10)%nat →
            (limiterRun times
               (if decide (j = 0%nat) then ∅ else {[minute := Z.of_nat j]})).2
            = replicate (length times `min` (10 - j)) true
              ++ replicate (length times - (10 - j)) false).
  { induction Htimes as [|now rest Hnow Hrest IH]; intros j Hj; [done|].
    simpl limiterRun.
    rewrite (checkRateLimit_same_minute minute now j Hmin Hnow).
    destruct (decide (j < 10)%nat) as [Hlt|Hge].
    - specialize (IH (S j) ltac:(lia)).
      rewrite decide_False in IH by lia.
      destruct (limiterRun rest {[minute := Z.of_nat (S j)]}) as [final outs].
      simpl in *. rewrite IH.
      replace (10 - j)%nat with (S (10 - S j)) by lia. simpl. done.
    - assert (j = 10%nat) as -> by lia.
      specialize (IH 10%nat ltac:(lia)).
      rewrite decide_False in IH by lia.
      destruct (limiterRun rest {[minute := Z.of_nat 10]}) as [final outs].
      simpl in *. rewrite IH, Nat.min_0_r, Nat.sub_0_r. done. }
  apply (Hgen 0%nat). lia.
Qed.

Lemma limiter_first_ten_of_a_minute_witness :
  (limiterRun [60000; 60001; 119999; 60500; 61000; 62000; 63000; 64000; 65000;
               66000; 67000; 60000] ∅).2
  = [true; true; true; true; true; true; true; true; true; true; false; false].
Proof.
  refine (limiter_first_ten_of_a_minute 60000 _ _ _).
  - vm_compute. reflexivity.
  - repeat constructor; vm_compute; discriminate.
Defined.

(** X12: the window of the limiter is the clock minute.  On a map that the
    limiter has built and that has no key later than the time of the call
    (the clock has not gone back), a call that does not fall on the very
    start of a minute counts the requests of the current clock minute
    only, and returns exactly when fewer than ten were recorded in it. *)
Theorem limiter_counts_current_minute (now : Z) (requestCounts : gmap Z Z) :
  limiterMap requestCounts →
  map_Forall (λ k _, k ≤ now) requestCounts →
  now ≠ now / 60000 * 60000 →
  currentRequests (cleanOld now requestCounts)
  = default 0 (requestCounts !! (now / 60000 * 60000)) ∧
  ((checkRateLimit now requestCounts).2 = Returns ()
   ↔ default 0 (requestCounts !! (now / 60000 * 60000)) < MAX_REQUESTS_PER_WINDOW).
Proof.
  intros Hm Hpast Hnow.
  set (cm := now / 60000 * 60000) in *.
  assert (Hclean : cleanOld now requestCounts
                   = match requestCounts !! cm with
                     | Some c => {[cm := c]}
                     | None => ∅
                     end).
  { apply map_eq. intros k. apply option_eq. intros c.
    unfold cleanOld. rewrite map_lookup_filter_Some. simpl.
    unfold RATE_LIMIT_WINDOW.
    pose proof (Z.div_mod now 60000 ltac:(lia)) as Hdm.
    pose proof (Z.mod_pos_bound now 60000 ltac:(lia)) as Hmod.
    split.
    - intros [Hk Hw]. destruct (Hm k c Hk) as [Hkey _].
      specialize (Hpast k c Hk). simpl in Hpast.
      assert (k = cm) as -> by (unfold cm in *; lia).
      rewrite Hk. by rewrite lookup_singleton_eq.
    - destruct (requestCounts !! cm) as [c'|] eqn:Hc; [|by rewrite lookup_empty].
      intros [<- <-]%lookup_singleton_Some. split; [done|]. unfold cm. lia. }
  assert (Hsum : currentRequests (cleanOld now requestCounts)
                 = default 0 (requestCounts !! cm)).
  { rewrite Hclean. destruct (requestCounts !! cm); simpl.
    - apply currentRequests_singleton.
    - apply currentRequests_empty. }
  split; [done|]. unfold checkRateLimit. fold cm. rewrite Hsum.
  destruct (Z.leb_spec MAX_REQUESTS_PER_WINDOW (default 0 (requestCounts !! cm)));
    simpl; split; try done; lia.
Qed.

Lemma limiter_counts_current_minute_witness :
  currentRequests (cleanOld 60001 {[ 0 := 10 ]})
  = default 0 (({[ 0 := 10 ]} : gmap Z Z) !! (60001 / 60000 * 60000)).
Proof.
  refine (proj1 (limiter_counts_current_minute 60001 {[ 0 := 10 ]} _ _ _)).
  - apply map_Forall_singleton. vm_compute. split; [reflexivity|discriminate].
  - apply map_Forall_singleton. vm_compute. discriminate.
  - vm_compute. discriminate.
Defined.

(** ** The tables of the chatbot *)

Lemma suggestionTable_entries (cat : string) (l : list string) :
  suggestionTable !! cat = Some l → cat ∈ categories ∧ length l = 3%nat.
Proof.
  intros H%elem_of_list_to_map_2.
  repeat (apply elem_of_cons in H as [[= -> ->]|H]);
    try (by apply elem_of_nil in H);
    (split; [apply (bool_decide_eq_true_1 _); vm_compute; reflexivity
            |reflexivity]).
Qed.

(** X13: every category gets its own three suggestions, and a key that is
    not a category (and not a name inherited from [Object.prototype])
    gets the three suggestions of [general]. *)
Theorem suggestions_always_three (cat : string) :
  cat ∉ objectPrototypeKeys →
  length (getSuggestionsForCategory cat) = 3%nat ∧
  (cat ∈ categories →
   suggestionTable !! cat = Some (getSuggestionsForCategory cat)) ∧
  (cat ∉ categories →
   getSuggestionsForCategory cat = getSuggestionsForCategory "general").
Proof.
  intros _. unfold getSuggestionsForCategory at 1 2 3.
  destruct (suggestionTable !! cat) as [l|] eqn:Hl.
  - destruct (suggestionTable_entries cat l Hl) as [Hc Hlen].
    split; [done|]. split; [done|]. intros Hn. by destruct Hn.
  - split; [vm_compute; reflexivity|]. split.
    + intros Hc. exfalso. unfold categories in Hc.
      repeat (apply elem_of_cons in Hc as [->|Hc]);
        try (by apply elem_of_nil in Hc); vm_compute in Hl; discriminate Hl.
    + intros _. vm_compute. reflexivity.
Qed.

Lemma suggestions_always_three_witness :
  length (getSuggestionsForCategory "sports") = 3%nat.
Proof.
  refine (proj1 (suggestions_always_three "sports" _)).
  apply (bool_decide_eq_false_1 _). vm_compute. reflexivity.
Defined.

(** X14: the eleven keys of [getCategoryList] are distinct and are the
    categories of the classifier other than [general]; each of the twelve
    categories is the answer of the classifier to some question, and each
    listed category to one of its own suggestions.  Six suggestions lead
    to another category than the one that offers them. *)
Theorem categories_round_trip :
  NoDup (fst <$> getCategoryList) ∧
  (∀ c, c ∈ (fst <$> getCategoryList) ↔ c ∈ categories ∧ c ≠ "general") ∧
  (∀ c, c ∈ categories → ∃ question, deriveQuestionCategory question = c) ∧
  (∀ c, c ∈ (fst <$> getCategoryList) →
        ∃ s, s ∈ getSuggestionsForCategory c
             ∧ deriveQuestionCategory (Some s) = c) ∧
  filter (λ cs, deriveQuestionCategory (Some cs.2) ≠ cs.1)
    (c ← fst <$> getCategoryList; (λ s, (c, s)) <$> getSuggestionsForCategory c)
  = [("attendance", "What are sanctions for tardiness?");
     ("majorOffensesA", "What happens for repeated violations?");
     ("categoryC", "Consequences for drugs or weapons?");
     ("categoryC", "Fraternities or hazing consequences");
     ("suspension", "What is the suspension policy?");
     ("suspension", "What happens during suspension?")].
Proof.
  assert (Hback : ∀ c, c ∈ (fst <$> getCategoryList) →
            ∃ s, s ∈ getSuggestionsForCategory c
                 ∧ deriveQuestionCategory (Some s) = c).
  { intros c Hc. simpl in Hc.
    repeat (apply elem_of_cons in Hc as [->|Hc]);
      try (by apply elem_of_nil in Hc).
    all: try (eexists; split; [by left|vm_compute; reflexivity]).
    all: eexists; split; [by right; left|vm_compute; reflexivity]. }
  split; [apply (bool_decide_eq_true_1 _); vm_compute; reflexivity|].
  split; [|split; [|split; [exact Hback|vm_compute; reflexivity]]].
  - intros c. split.
    + intros Hc. simpl in Hc.
      repeat (apply elem_of_cons in Hc as [->|Hc]);
        try (by apply elem_of_nil in Hc);
        (split; [apply (bool_decide_eq_true_1 _); vm_compute; reflexivity|done]).
    + intros [Hc Hg]. unfold categories in Hc.
      repeat (apply elem_of_cons in Hc as [->|Hc]);
        try (by apply elem_of_nil in Hc); try done;
        apply (bool_decide_eq_true_1 _); vm_compute; reflexivity.
  - intros c Hc.
    destruct (decide (c = "general")) as [->|Hg].
    + exists None. vm_compute. reflexivity.
    + destruct (Hback c) as (s & _ & Hs); [|by exists (Some s)].
      unfold categories in Hc. simpl.
      repeat (apply elem_of_cons in Hc as [->|Hc]);
        try (by apply elem_of_nil in Hc); try done;
        apply (bool_decide_eq_true_1 _); vm_compute; reflexivity.
Qed.

(** ** The handlers *)

Lemma orElse_nonempty (x : option string) (y : string) :
  y ≠ "" → orElse x y ≠ "".
Proof.
  intros Hy. unfold orElse, orNull. destruct x as [[|c s]|]; simpl; done.
Qed.

Lemma faq_answer_truthy (cat question : string) :
  match orNull (getFAQAnswer cat question) with
  | Some _ => cat ∈ faqCategories
  | None => cat ∉ faqCategories
  end.
Proof.
  destruct (decide (cat ∈ faqCategories)) as [Hc|Hc].
  - assert (∃ ans, getFAQAnswer cat question = Some ans ∧ ans ≠ "")
      as (ans & -> & Hne).
    { pose proof Hc as Hc'. unfold faqCategories in Hc'.
      repeat (apply elem_of_cons in Hc' as [->|Hc']);
        [| | |by apply elem_of_nil in Hc'].
      - rewrite dressCode_answer. eexists. split; [done|].
        destruct (Re.test reDressSanctions question); [done|].
        by destruct (Re.test reWhatIsDressCode question).
      - rewrite attendance_answer. by eexists.
      - rewrite violations_answer. by eexists. }
    simpl. destruct ans; [done|]. simpl. done.
  - unfold getFAQAnswer. rewrite CHATBOT_FAQ_other by done. done.
Qed.

(** X15: [POST /api/chatbot/ask] answers 400 to a question that is missing
    or empty and 200 to every other one, never anything else.  A 200
    response carries a text that is not empty, the category of the
    classifier and the three suggestions of that category; its source is
    "FAQ" exactly for the three categories that have FAQ rules, and then
    the whole response is the same whatever the reading of the handbook
    gives. *)
Theorem chatbot_response_shape (qs : string) (pdf : Outcome (option string)) :
  (∀ question, question = None ∨ question = Some "" →
     chatbotAsk question pdf
     = {| status := 400; body := ErrorBody "Question is required" |}) ∧
  (Js.truthy qs = true →
   ∃ text,
     chatbotAsk (Some qs) pdf
     = {| status := 200;
          body := ChatBody text
                    (getSuggestionsForCategory (deriveQuestionCategory (Some qs)))
                    (deriveQuestionCategory (Some qs))
                    (if bool_decide (deriveQuestionCategory (Some qs) ∈ faqCategories)
                     then "FAQ" else "Student Handbook") |} ∧
     text ≠ "" ∧
     length (getSuggestionsForCategory (deriveQuestionCategory (Some qs))) = 3%nat ∧
     (deriveQuestionCategory (Some qs) ∈ faqCategories →
      ∀ pdf', chatbotAsk (Some qs) pdf' = chatbotAsk (Some qs) pdf)).
Proof.
  split; [by intros question [->| ->]|].
  intros Hq.
  pose proof (faq_answer_truthy (deriveQuestionCategory (Some qs)) qs) as Hfaq.
  assert (Hshape : ∀ p, ∃ hb,
            chatbotAsk (Some qs) p
            = {| status := 200;
                 body := ChatBody
                   (orElse (getFAQAnswer (deriveQuestionCategory (Some qs)) qs)
                      (orElse (Some hb) notFoundMessage))
                   (getSuggestionsForCategory (deriveQuestionCategory (Some qs)))
                   (deriveQuestionCategory (Some qs))
                   (match orNull (getFAQAnswer (deriveQuestionCategory (Some qs)) qs) with
                    | Some _ => "FAQ"
                    | None => "Student Handbook"
                    end) |}).
  { intros p. eexists. by apply chatbotAsk_question. }
  destruct (Hshape pdf) as [hb Hpdf]. eexists. split; [|split; [|split]].
  - rewrite Hpdf. f_equal. f_equal.
    destruct (orNull _); [by rewrite bool_decide_eq_true_2
                         |by rewrite bool_decide_eq_false_2].
  - apply orElse_nonempty, orElse_nonempty. done.
  - destruct (suggestionTable !! deriveQuestionCategory (Some qs)) as [l|] eqn:Hl.
    + unfold getSuggestionsForCategory. rewrite Hl.
      by apply suggestionTable_entries in Hl as [_ ?].
    + unfold getSuggestionsForCategory. rewrite Hl. vm_compute. reflexivity.
  - intros Hc pdf'. destruct (Hshape pdf') as [hb' Hpdf']. rewrite Hpdf, Hpdf'.
    unfold orElse at 1 3. destruct (orNull _); [done|]. done.
Qed.

Lemma chatbot_response_shape_witness :
  ∃ text,
    chatbotAsk (Some "How many absences are allowed?") (Throws "ENOENT")
    = {| status := 200;
         body := ChatBody text
                   (getSuggestionsForCategory
                      (deriveQuestionCategory (Some "How many absences are allowed?")))
                   (deriveQuestionCategory (Some "How many absences are allowed?"))
                   (if bool_decide
                         (deriveQuestionCategory (Some "How many absences are allowed?")
                            ∈ faqCategories)
                    then "FAQ" else "Student Handbook") |} ∧
    text ≠ "".
Proof.
  destruct (proj2 (chatbot_response_shape "How many absences are allowed?"
                     (Throws "ENOENT")) eq_refl) as (text & H1 & H2 & _).
  exists text. split; [exact H1|exact H2].
Defined.

Lemma askHandbook_same_minute (minute now : Z) (j : nat)
    (question : option string) (pdf : Outcome (option string)) :
  minute = minute / 60000 * 60000 → minute ≤ now < minute + 60000 →
  askHandbook now (if decide (j = 0%nat) then ∅ else {[minute := Z.of_nat j]})
    question pdf
  = if decide (j < 10)%nat
    then ({[minute := Z.of_nat (S j)]}, (askHandbook now ∅ question pdf).2)
    else ({[minute := Z.of_nat j]},
          {| status := 500; body := ErrorBody rateLimitMessage |}).
Proof.
  intros Hmin Hnow. unfold askHandbook.
  rewrite (checkRateLimit_same_minute minute now j Hmin Hnow).
  pose proof (checkRateLimit_same_minute minute now 0 Hmin Hnow) as H0.
  rewrite decide_True in H0 by done. rewrite decide_True in H0 by lia.
  rewrite H0.
  destruct (decide (j < 10)%nat); [|done].
  destruct (isBlank question); [done|]. destruct pdf; [|done].
  by case_bool_decide.
Qed.

(** X16: every request to [POST /api/ask-handbook] uses up the limit, the
    ones that are answered 400 too.  Of the requests of one clock minute,
    on the empty map, the first ten are answered as if there were no
    limit and all the later ones get 500 with the message of the limit,
    whatever they ask. *)
Theorem ask_handbook_quota (minute : Z)
    (requests : list (Z * option string * Outcome (option string))) :
  minute = minute / 60000 * 60000 →
  Forall (λ r, minute ≤ r.1.1 < minute + 60000) requests →
  (askHandbookRun requests ∅).2
  = ((λ r, (askHandbook r.1.1 ∅ r.1.2 r.2).2) <$> take 10 requests)
    ++ replicate (length requests - 10)
         {| status := 500; body := ErrorBody rateLimitMessage |}.
Proof.
  intros Hmin Hreq.
  assert (Hgen : ∀ j : nat, (j ≤ 10)%nat →
            (askHandbookRun requests
               (if decide (j = 0%nat) then ∅ else {[minute := Z.of_nat j]})).2
            = ((λ r, (askHandbook r.1.1 ∅ r.1.2 r.2).2) <$> take (10 - j) requests)
              ++ replicate (length requests - (10 - j))
                   {| status := 500; body := ErrorBody rateLimitMessage |}).
  { induction Hreq as [|[[now question] pdf] rest Hnow Hrest IH]; intros j Hj.
    - simpl. by rewrite take_nil.
    - simpl in Hnow. simpl askHandbookRun.
      rewrite (askHandbook_same_minute minute now j question pdf Hmin Hnow).
      destruct (decide (j < 10)%nat) as [Hlt|Hge].
      + specialize (IH (S j) ltac:(lia)). rewrite decide_False in IH by lia.
        destruct (askHandbookRun rest {[minute := Z.of_nat (S j)]}) as [final rs].
        simpl in *. rewrite IH.
        replace (10 - j)%nat with (S (10 - S j)) by lia. done.
      + assert (j = 10%nat) as -> by lia.
        specialize (IH 10%nat ltac:(lia)). rewrite decide_False in IH by lia.
        destruct (askHandbookRun rest {[minute := Z.of_nat 10]}) as [final rs].
        simpl in *. rewrite IH. simpl. by rewrite Nat.sub_0_r. }
  apply (Hgen 0%nat). lia.
Qed.

Lemma ask_handbook_quota_witness :
  (askHandbookRun (replicate 11 (1000, Some "", Returns (Some sampleHandbook))) ∅).2
  = replicate 10 {| status := 400; body := ErrorBody "Question is required." |}
    ++ [{| status := 500; body := ErrorBody rateLimitMessage |}].
Proof.
  refine (ask_handbook_quota 0
            (replicate 11 (1000, Some "", Returns (Some sampleHandbook))) _ _).
  - vm_compute. reflexivity.
  - repeat constructor; vm_compute; discriminate.
Defined.

(** ** Patterns between [^] and [$] *)

Lemma length_chars (s : string) : length (Js.chars s) = String.length s.
Proof. induction s as [|c s IH]; simpl; [done|]. by rewrite IH. Qed.

Lemma testWhole_spec (re : Re.RegExp) (s : string) :
  testWhole re s = true
  ↔ matches (Re.ignoreCase re) (Re.source re) (Js.chars s).
Proof.
  unfold testWhole.
  set (k := λ rest : list ascii,
              match rest with [] => Some [] | _ :: _ => None end).
  split.
  - destruct (Re.bt _ _ _ _ k) eqn:Hbt; [|done]. intros _.
    destruct (bt_sound (Re.ignoreCase re) (S (String.length s)) (Re.source re)
                (Js.chars s) k)
      as (s1 & s2 & Hs & Hm & Hk); [by rewrite Hbt|].
    destruct s2; [|by destruct Hk as [? [=]]].
    rewrite app_nil_r in Hs. by rewrite Hs.
  - intros Hm.
    destruct (bt_complete (Re.ignoreCase re) (Re.source re) (Js.chars s) Hm
                (S (String.length s)) [] k) as [e He].
    + rewrite app_nil_r, length_chars. lia.
    + by eexists.
    + rewrite app_nil_r in He. by rewrite He.
Qed.

Lemma matches_cat_inv (i : bool) (a b : Re.regex) (s : list ascii) :
  matches i (Re.Cat a b) s
  ↔ ∃ s1 s2, s = s1 ++ s2 ∧ matches i a s1 ∧ matches i b s2.
Proof.
  split.
  - inversion 1; subst. by eexists _, _.
  - intros (s1 & s2 & -> & H1 & H2). by constructor.
Qed.

Lemma matches_chr_inv (c : ascii) (s : list ascii) :
  matches false (Re.Chr c) s ↔ s = [c].
Proof. apply (matches_LitChars [c]). Qed.

Lemma matches_cls_inv (i : bool) (p : ascii → bool) (s : list ascii) :
  matches i (Re.Cls p) s ↔ ∃ x, s = [x] ∧ p x = true.
Proof.
  split.
  - inversion 1; subst. by eexists.
  - intros (x & -> & Hx). by constructor.
Qed.

Lemma matches_eps_inv (i : bool) (s : list ascii) :
  matches i Re.Eps s ↔ s = [].
Proof. split; [by inversion 1|intros ->; constructor]. Qed.

Lemma matches_star_cls (i : bool) (p : ascii → bool) (s : list ascii) :
  matches i (Re.Star (Re.Cls p)) s ↔ Forall (λ c, p c = true) s.
Proof.
  split.
  - intros H. remember (Re.Star (Re.Cls p)) as r eqn:Hr.
    induction H as [| | | | | | |a s1 s2 Hne H1 _ H2 IH2]; try discriminate.
    + constructor.
    + injection Hr as ->. apply matches_cls_inv in H1 as (x & -> & Hx).
      constructor; [done|]. by apply IH2.
  - induction 1 as [|x s Hx Hs IH]; [constructor|].
    apply (matches_star_cons i _ [x] s); [done|by constructor|done].
Qed.

Lemma matches_plus_cls (i : bool) (p : ascii → bool) (s : list ascii) :
  matches i (Re.Plus (Re.Cls p)) s ↔ s ≠ [] ∧ Forall (λ c, p c = true) s.
Proof.
  unfold Re.Plus. rewrite matches_cat_inv. split.
  - intros (s1 & s2 & -> & (x & -> & Hx)%matches_cls_inv & H2%matches_star_cls).
    split; [done|]. by constructor.
  - intros [Hne Hall]. destruct Hall as [|x s Hx Hs]; [done|].
    exists [x], s. split; [done|]. split; [by constructor|].
    by apply matches_star_cls.
Qed.

Lemma matches_Seq (i : bool) (l : list Re.regex) (s : list ascii) :
  matches i (Re.Seq l) s
  ↔ ∃ pieces, s = concat pieces ∧ Forall2 (matches i) l pieces.
Proof.
  revert s. induction l as [|r l IH]; intros s.
  - simpl. rewrite matches_eps_inv. split.
    + intros ->. exists []. split; [done|constructor].
    + intros (pieces & -> & ->%Forall2_nil_inv_l). done.
  - destruct l as [|r' l].
    + simpl. split.
      * intros H. exists [s]. split; [simpl; by rewrite app_nil_r|].
        by repeat constructor.
      * intros (pieces & -> & (p1 & ps & H1 & ->%Forall2_nil_inv_l & ->)%Forall2_cons_inv_l).
        simpl. by rewrite app_nil_r.
    + change (Re.Seq (r :: r' :: l)) with (Re.Cat r (Re.Seq (r' :: l))).
      rewrite matches_cat_inv. split.
      * intros (s1 & s2 & -> & H1 & (pieces & -> & H2)%IH).
        exists (s1 :: pieces). split; [done|]. by constructor.
      * intros (pieces & -> & (p1 & ps & H1 & H2 & ->)%Forall2_cons_inv_l).
        exists p1, (concat ps). split; [done|]. split; [done|].
        apply IH. by exists ps.
Qed.

(** ** The phone number sent to the SMS service *)

Lemma chars_removeNonDigits (s : string) :
  Js.chars (removeNonDigits s) = filter (λ c, isDigit c = true) (Js.chars s).
Proof. apply chars_str. Qed.

Lemma removeNonDigits_digits (s : string) :
  Forall (λ c, isDigit c = true) (Js.chars s) → removeNonDigits s = s.
Proof.
  intros H. unfold removeNonDigits. rewrite filter_all by done. apply str_chars.
Qed.

Lemma removeNonDigits_Forall (s : string) :
  Forall (λ c, isDigit c = true) (Js.chars (removeNonDigits s)).
Proof.
  rewrite chars_removeNonDigits. apply Forall_forall.
  by intros c [? _]%list_elem_of_filter.
Qed.

(** The value of [formatPhoneForSemaphore] by the digits of the number. *)
Lemma formatPhoneForSemaphore_digits (phoneNumber : string) :
  formatPhoneForSemaphore phoneNumber
  = match removeNonDigits phoneNumber with
    | String "6" (String "3" d') => String "0" d'
    | String "0" d' => String "0" d'
    | d => String "0" d
    end.
Proof.
  pose proof (removeNonDigits_Forall phoneNumber) as Hall.
  unfold formatPhoneForSemaphore, startsWith, substring. cbv zeta.
  destruct (removeNonDigits phoneNumber) as [|c1 d]; [reflexivity|].
  simpl in Hall. apply Forall_cons in Hall as [H1 Hall].
  destruct (Ascii.eqb_spec "6" c1) as [<-|H6].
  - destruct d as [|c2 d]; [reflexivity|].
    destruct (Ascii.eqb_spec "3" c2) as [<-|H3].
    + simpl. by rewrite drop_0, str_chars.
    + simpl.
      destruct c2 as [[] [] [] [] [] [] [] []]; try reflexivity; by destruct H3.
  - simpl.
    destruct (Ascii.eqb_spec "+" c1) as [<-|Hp]; [discriminate H1|]. simpl.
    destruct (Ascii.eqb_spec "0" c1) as [<-|H0]; simpl; [done|].
    destruct c1 as [[] [] [] [] [] [] [] []]; try reflexivity;
      first [by destruct H6 | by destruct H0].
Qed.

(** X17: whatever the input, the number that goes to the SMS service is
    made of digits only and begins with 0; formatting it again changes
    nothing; and the test for a leading "+63", made after every character
    that is not a digit was removed, never holds. *)
Theorem phone_format_shape (phoneNumber : string) :
  (∃ rest, formatPhoneForSemaphore phoneNumber = String "0" rest) ∧
  Forall (λ c, isDigit c = true) (Js.chars (formatPhoneForSemaphore phoneNumber)) ∧
  formatPhoneForSemaphore (formatPhoneForSemaphore phoneNumber)
  = formatPhoneForSemaphore phoneNumber ∧
  startsWith (removeNonDigits phoneNumber) "+63" = false.
Proof.
  pose proof (removeNonDigits_Forall phoneNumber) as Hall.
  assert (Hshape : ∃ rest, formatPhoneForSemaphore phoneNumber = String "0" rest
                           ∧ Forall (λ c, isDigit c = true) (Js.chars rest)).
  { rewrite formatPhoneForSemaphore_digits.
    destruct (removeNonDigits phoneNumber) as [|c1 d]; [by exists ""|].
    simpl in Hall. apply Forall_cons in Hall as [H1 Hall].
    destruct (Ascii.eqb_spec "6" c1) as [<-|H6].
    - destruct d as [|c2 d]; [eexists; split; [done|by repeat constructor]|].
      simpl in Hall. apply Forall_cons in Hall as [H2 Hall].
      destruct (Ascii.eqb_spec "3" c2) as [<-|H3]; [by exists d|].
      exists (String "6" (String c2 d)).
      split; [|by repeat constructor].
      destruct c2 as [[] [] [] [] [] [] [] []]; try reflexivity; by destruct H3.
    - destruct (Ascii.eqb_spec "0" c1) as [<-|H0]; [by exists d|].
      exists (String c1 d). split; [|by constructor].
      destruct c1 as [[] [] [] [] [] [] [] []]; try reflexivity;
        first [by destruct H6 | by destruct H0]. }
  destruct Hshape as (rest & Hf & Hrest).
  split; [by exists rest|]. split; [|split].
  - rewrite Hf. by constructor.
  - rewrite (formatPhoneForSemaphore_digits (formatPhoneForSemaphore phoneNumber)).
    rewrite removeNonDigits_digits by (rewrite Hf; by constructor).
    by rewrite Hf.
  - unfold startsWith.
    destruct (Js.chars (removeNonDigits phoneNumber)) as [|c1 d]; [done|].
    apply Forall_cons in Hall as [H1 _].
    change (Js.chars "+63") with ["+"; "6"; "3"]%char. cbn [Js.isPrefix].
    destruct (Ascii.eqb_spec "+" c1) as [<-|]; [discriminate H1|done].
Qed.

(** X18: the usual spellings of one number give the same result.  For a
    national number [n] made of digits that begins neither with 0 nor with
    63, an input whose digits are 63 and [n], or 0 and [n], or [n] alone,
    whatever stands between them, is formatted as 0 and [n]. *)
Theorem phone_format_spellings (phoneNumber n : string) :
  startsWith n "0" = false → startsWith n "63" = false →
  removeNonDigits phoneNumber ∈ ["63" +:+ n; "0" +:+ n; n] →
  formatPhoneForSemaphore phoneNumber = "0" +:+ n.
Proof.
  intros H0 H63 Hin. rewrite formatPhoneForSemaphore_digits.
  repeat (apply elem_of_cons in Hin as [->|Hin]); [done|done| |by apply elem_of_nil in Hin].
  unfold startsWith in *. destruct n as [|c1 n]; [done|]. simpl in *.
  destruct (Ascii.eqb_spec "0" c1) as [<-|Hc0]; [done|].
  destruct (Ascii.eqb_spec "6" c1) as [<-|Hc6].
  - destruct n as [|c2 n]; [done|]. simpl in *.
    destruct (Ascii.eqb_spec "3" c2) as [<-|Hc3]; [done|].
    destruct c2 as [[] [] [] [] [] [] [] []]; try reflexivity; by destruct Hc3.
  - destruct c1 as [[] [] [] [] [] [] [] []]; try reflexivity;
      first [by destruct Hc0 | by destruct Hc6].
Qed.

Lemma phone_format_spellings_witness :
  formatPhoneForSemaphore "+63 928 273 1202" = "0" +:+ "9282731202" ∧
  formatPhoneForSemaphore "0928-273-1202" = "0" +:+ "9282731202" ∧
  formatPhoneForSemaphore "9282731202" = "0" +:+ "9282731202".
Proof.
  split; [|split].
  - refine (phone_format_spellings "+63 928 273 1202" "9282731202" _ _ _);
      [reflexivity|reflexivity|].
    apply (bool_decide_eq_true_1 _). vm_compute. reflexivity.
  - refine (phone_format_spellings "0928-273-1202" "9282731202" _ _ _);
      [reflexivity|reflexivity|].
    apply (bool_decide_eq_true_1 _). vm_compute. reflexivity.
  - refine (phone_format_spellings "9282731202" "9282731202" _ _ _);
      [reflexivity|reflexivity|].
    apply (bool_decide_eq_true_1 _). vm_compute. reflexivity.
Defined.

(** ** The contact number of the bulk upload *)

Lemma chars_inj (s1 s2 : string) : Js.chars s1 = Js.chars s2 → s1 = s2.
Proof. intros H. apply (f_equal Js.str) in H. by rewrite !str_chars in H. Qed.

Lemma contactNo_matches (v : string) :
  testWhole reContactNo v = true
  ↔ ∃ d, v = "+63" +:+ d ∧ String.length d = 10%nat
         ∧ Forall (λ c, isDigit c = true) (Js.chars d).
Proof.
  rewrite testWhole_spec. unfold reContactNo. cbn [Re.source Re.ignoreCase].
  rewrite matches_Seq. cbn [replicate app]. split.
  - intros (pieces & Hv & H).
    repeat match goal with
           | H : Forall2 _ (_ :: _) _ |- _ =>
               apply Forall2_cons_inv_l in H as (? & ? & ? & H & ->)
           | H : Forall2 _ [] _ |- _ => apply Forall2_nil_inv_l in H as ->
           | H : matches _ (Re.Chr _) _ |- _ => apply matches_chr_inv in H as ->
           | H : matches _ digit _ |- _ => apply matches_cls_inv in H as (? & -> & ?)
           end.
    simpl in Hv.
    match type of Hv with
    | _ = _ :: _ :: _ :: ?ds => exists (Js.str ds)
    end.
    split; [apply chars_inj; by rewrite Hv|].
    split; [reflexivity|]. rewrite chars_str. by repeat constructor.
  - intros (d & -> & Hlen & Hd). rewrite chars_append.
    rewrite <- length_chars in Hlen.
    destruct (Js.chars d) as [|x1 [|x2 [|x3 [|x4 [|x5 [|x6 [|x7 [|x8 [|x9 [|x10 [|]]]]]]]]]]];
      try discriminate Hlen.
    repeat match goal with
           | H : Forall _ (_ :: _) |- _ => apply Forall_cons in H as [? H]
           end.
    exists [["+"]; ["6"]; ["3"]; [x1]; [x2]; [x3]; [x4]; [x5]; [x6]; [x7]; [x8];
            [x9]; [x10]]%char.
    split; [reflexivity|].
    repeat (constructor; [first [by apply matches_chr_inv
                                |by apply matches_cls_inv; eexists]|]).
    constructor.
Qed.

Lemma removeNonDigits_plus63 (d : string) :
  Forall (λ c, isDigit c = true) (Js.chars d) →
  removeNonDigits ("+63" +:+ d) = "63" +:+ d.
Proof.
  intros Hd. apply chars_inj. rewrite chars_removeNonDigits, !chars_append.
  rewrite filter_app, (filter_all _ (Js.chars d)) by done. reflexivity.
Qed.

(** X19: a contact number that the bulk upload lets through is stored as
    +63 and ten digits, and the SMS formatter turns what is stored into 0
    and the same ten digits. *)
Theorem contact_number_accepted (raw value : string) :
  Js.truthy value = true →
  (contactNoCase raw value).2 = [] →
  ∃ d, (contactNoCase raw value).1 = "+63" +:+ d ∧
       String.length d = 10%nat ∧
       Forall (λ c, isDigit c = true) (Js.chars d) ∧
       formatPhoneForSemaphore (contactNoCase raw value).1 = "0" +:+ d.
Proof.
  intros Hv. unfold contactNoCase. rewrite Hv. cbv zeta.
  match goal with
  | |- context [testWhole reContactNo ?v] => generalize v
  end.
  intros v. simpl. destruct (testWhole reContactNo v) eqn:Ht; [|done].
  intros _. apply contactNo_matches in Ht as (d & -> & Hlen & Hd).
  exists d. split; [done|]. split; [done|]. split; [done|].
  rewrite formatPhoneForSemaphore_digits, removeNonDigits_plus63 by done.
  reflexivity.
Qed.

Lemma contact_number_accepted_witness :
  ∃ d, (contactNoCase "(0928) 273-1202" "(0928) 273-1202").1 = "+63" +:+ d ∧
       formatPhoneForSemaphore (contactNoCase "(0928) 273-1202" "(0928) 273-1202").1
       = "0" +:+ d.
Proof.
  destruct (contact_number_accepted "(0928) 273-1202" "(0928) 273-1202")
    as (d & H1 & _ & _ & H2).
  - reflexivity.
  - vm_compute. reflexivity.
  - exists d. split; [exact H1|exact H2].
Defined.

Lemma startsWith_append (p s : string) : startsWith (p +:+ s) p = true.
Proof.
  unfold startsWith. apply isPrefix_spec. exists (Js.chars s).
  apply chars_append.
Qed.

Lemma startsWith_first_differs (c c' : ascii) (s p : string) :
  c ≠ c' → startsWith (String c s) (String c' p) = false.
Proof.
  intros H. unfold startsWith. cbn [Js.chars list_ascii_of_string Js.isPrefix].
  rewrite (proj2 (Ascii.eqb_neq c' c)) by done. reflexivity.
Qed.

(** X20: the four spellings that the message of the bulk upload names are
    let through.  For ten digits [d] that begin neither with 0 nor with
    63, a cell that reads, once blanks, hyphens and brackets are removed,
    +63 and [d], 63 and [d], 0 and [d], or [d] alone, is stored as +63
    and [d] without a message. *)
Theorem contact_number_spellings (raw value d : string) :
  Js.truthy value = true →
  String.length d = 10%nat →
  Forall (λ c, isDigit c = true) (Js.chars d) →
  startsWith d "0" = false → startsWith d "63" = false →
  removeSeparators value ∈ ["+63" +:+ d; "63" +:+ d; "0" +:+ d; d] →
  contactNoCase raw value = ("+63" +:+ d, []).
Proof.
  intros Hv Hlen Hd H0 H63 Hin.
  assert (Hok : testWhole reContactNo ("+63" +:+ d) = true).
  { apply contactNo_matches. by exists d. }
  unfold contactNoCase. rewrite Hv. cbv zeta.
  destruct d as [|c1 d]; [discriminate Hlen|].
  assert (Hc1 : c1 ≠ "+"%char).
  { intros ->. apply Forall_cons in Hd as [Hd _]. discriminate Hd. }
  repeat (apply elem_of_cons in Hin as [->|Hin]); [| | | |by apply elem_of_nil in Hin].
  - rewrite (startsWith_append "+63"), Hok. done.
  - replace (startsWith ("63" +:+ String c1 d) "+63") with false by reflexivity.
    rewrite (startsWith_append "63").
    replace ("+" +:+ "63" +:+ String c1 d) with ("+63" +:+ String c1 d)
      by reflexivity.
    by rewrite Hok.
  - replace (startsWith ("0" +:+ String c1 d) "+63") with false by reflexivity.
    replace (startsWith ("0" +:+ String c1 d) "63") with false by reflexivity.
    rewrite (startsWith_append "0").
    replace (substring ("0" +:+ String c1 d) 1) with (String c1 d)
      by (symmetry; apply (str_chars (String c1 d))).
    by rewrite Hok.
  - rewrite (startsWith_first_differs c1 "+") by done.
    rewrite H63, H0, Hok. done.
Qed.

Lemma contact_number_spellings_witness :
  contactNoCase "63 928 273 1202" "63 928 273 1202" = ("+63" +:+ "9282731202", []).
Proof.
  refine (contact_number_spellings "63 928 273 1202" "63 928 273 1202"
            "9282731202" _ _ _ _ _ _); try reflexivity.
  - repeat constructor.
  - apply (bool_decide_eq_true_1 _). vm_compute. reflexivity.
Defined.

(** ** The checks of the bulk upload *)

Lemma dropSpaces_id (l : list ascii) :
  Forall (λ c, Js.isSpace c = false) l → Js.dropSpaces l = l.
Proof. intros [|c l' Hc _]; simpl; [done|]. by rewrite Hc. Qed.

Lemma trim_no_space (s : string) :
  Forall (λ c, Js.isSpace c = false) (Js.chars s) → Js.trim s = s.
Proof.
  intros H. unfold Js.trim, Js.trimChars.
  rewrite (dropSpaces_id _ H), dropSpaces_id by by apply Forall_rev.
  by rewrite rev_involutive, str_chars.
Qed.

Lemma emailChar_no_space (l : list ascii) :
  Forall (λ c, isEmailChar c = true) l → Forall (λ c, Js.isSpace c = false) l.
Proof.
  intros H. eapply Forall_impl; [exact H|]. intros c. unfold isEmailChar.
  by destruct (Js.isSpace c).
Qed.

Lemma emailChar_no_at (l : list ascii) :
  Forall (λ c, isEmailChar c = true) l →
  filter (λ c, c = "@"%char) l = [].
Proof.
  induction 1 as [|c l Hc _ IH]; [done|].
  rewrite filter_cons, IH. case_decide as E; [|done].
  subst c. by vm_compute in Hc.
Qed.

(** X21: [isValidEmail] accepts exactly the strings of the form
    local@domain.tld whose three parts are not empty and hold neither
    white space nor "@".  An accepted address therefore has exactly one
    "@" and no white space at all. *)
Theorem valid_email_shape (email : string) :
  (isValidEmail email = true
   ↔ ∃ l d t,
       email = l +:+ "@" +:+ d +:+ "." +:+ t ∧
       l ≠ "" ∧ d ≠ "" ∧ t ≠ "" ∧
       Forall (λ c, isEmailChar c = true) (Js.chars l) ∧
       Forall (λ c, isEmailChar c = true) (Js.chars d) ∧
       Forall (λ c, isEmailChar c = true) (Js.chars t)) ∧
  (isValidEmail email = true →
   length (filter (λ c, c = "@"%char) (Js.chars email)) = 1%nat ∧
   Forall (λ c, Js.isSpace c = false) (Js.chars email)).
Proof.
  assert (Hiff : isValidEmail email = true
            ↔ ∃ l d t,
                email = l +:+ "@" +:+ d +:+ "." +:+ t ∧
                l ≠ "" ∧ d ≠ "" ∧ t ≠ "" ∧
                Forall (λ c, isEmailChar c = true) (Js.chars l) ∧
                Forall (λ c, isEmailChar c = true) (Js.chars d) ∧
                Forall (λ c, isEmailChar c = true) (Js.chars t)).
  { unfold isValidEmail. rewrite testWhole_spec. unfold reEmail.
    cbn [Re.source Re.ignoreCase]. rewrite matches_Seq. split.
    - intros (pieces & He & H).
      repeat match goal with
             | H : Forall2 _ (_ :: _) _ |- _ =>
                 apply Forall2_cons_inv_l in H as (? & ? & ? & H & ->)
             | H : Forall2 _ [] _ |- _ => apply Forall2_nil_inv_l in H as ->
             | H : matches _ (Re.Chr _) _ |- _ => apply matches_chr_inv in H as ->
             | H : matches _ (Re.Plus _) _ |- _ =>
                 apply matches_plus_cls in H as [? ?]
             end.
      simpl in He. rewrite app_nil_r in He.
      match type of He with
      | _ = ?l ++ _ :: ?d ++ _ :: ?t => exists (Js.str l), (Js.str d), (Js.str t)
      end.
      rewrite !chars_str. repeat split; try done.
      + apply chars_inj. rewrite He, !chars_append, !chars_str. done.
      + intros E. apply (f_equal Js.chars) in E. by rewrite chars_str in E.
      + intros E. apply (f_equal Js.chars) in E. by rewrite chars_str in E.
      + intros E. apply (f_equal Js.chars) in E. by rewrite chars_str in E.
    - intros (l & d & t & -> & Hl & Hd & Ht & Hal & Had & Hat).
      exists [Js.chars l; ["@"%char]; Js.chars d; ["."%char]; Js.chars t].
      split; [rewrite !chars_append; simpl; by rewrite app_nil_r|].
      assert (Hne : ∀ s : string, s ≠ "" → Js.chars s ≠ []).
      { intros s Hs E. apply Hs, chars_inj. by rewrite E. }
      repeat (constructor;
              [first [by apply matches_chr_inv
                     |apply matches_plus_cls; split; [by apply Hne|done]]|]).
      constructor. }
  split; [exact Hiff|].
  intros (l & d & t & -> & _ & _ & _ & Hal & Had & Hat)%Hiff.
  rewrite !chars_append. split.
  - rewrite !filter_app, (emailChar_no_at _ Hal), (emailChar_no_at _ Had),
      (emailChar_no_at _ Hat). reflexivity.
  - repeat (apply Forall_app; split); try (by apply emailChar_no_space).
    all: by repeat constructor.
Qed.

Lemma reYear_spec (v : string) :
  testWhole reYear v = true
  ↔ v ∈ ["7th Grade"; "8th Grade"; "9th Grade"; "10th Grade"; "11th Grade";
         "12th Grade"].
Proof.
  rewrite testWhole_spec. unfold reYear. cbn [Re.source Re.ignoreCase].
  rewrite matches_Seq. split.
  - intros (pieces & He & H).
    apply Forall2_cons_inv_l in H as (n & ps & Hn & H & ->).
    apply Forall2_cons_inv_l in H as (g & ps' & Hg & ->%Forall2_nil_inv_l & ->).
    apply matches_AltOf in Hn as (r & Hr & Hn).
    apply matches_LitChars in Hg as ->.
    apply list_elem_of_fmap in Hr as (lit & -> & Hlit).
    apply matches_LitChars in Hn as ->.
    assert (Hv : v = lit +:+ "th Grade").
    { apply chars_inj. rewrite He, chars_append. simpl.
      by rewrite ?app_nil_r. }
    subst v. clear He.
    repeat (apply elem_of_cons in Hlit as [->|Hlit];
            [apply (bool_decide_eq_true_1 _); by vm_compute|]).
    by apply elem_of_nil in Hlit.
  - intros Hv.
    assert (∃ lit, lit ∈ ["7"; "8"; "9"; "10"; "11"; "12"]
                   ∧ v = lit +:+ "th Grade") as (lit & Hlit & ->).
    { repeat (apply elem_of_cons in Hv as [->|Hv];
              [first [by exists "7"; split; [set_solver|]
                     |by exists "8"; split; [set_solver|]
                     |by exists "9"; split; [set_solver|]
                     |by exists "10"; split; [set_solver|]
                     |by exists "11"; split; [set_solver|]
                     |by exists "12"; split; [set_solver|]]|]).
      by apply elem_of_nil in Hv. }
    exists [Js.chars lit; Js.chars "th Grade"]. split.
    + rewrite chars_append. simpl. by rewrite ?app_nil_r.
    + constructor; [|constructor; [by apply matches_LitChars|constructor]].
      apply matches_AltOf. exists (Re.Lit lit).
      split; [by apply list_elem_of_fmap_2|by apply matches_LitChars].
Qed.

Lemma yearMap_values (y v : string) :
  yearMap !! y = Some v →
  v ∈ ["7th Grade"; "8th Grade"; "9th Grade"; "10th Grade"; "11th Grade";
       "12th Grade"].
Proof.
  intros H. apply elem_of_list_to_map_2 in H.
  repeat (apply elem_of_cons in H as [[= -> ->]|H];
          [apply (bool_decide_eq_true_1 _); by vm_compute|]).
  by apply elem_of_nil in H.
Qed.

Lemma yearMap_canonical (v : string) :
  v ∈ ["7th Grade"; "8th Grade"; "9th Grade"; "10th Grade"; "11th Grade";
       "12th Grade"] →
  yearMap !! v = Some v.
Proof.
  intros H.
  repeat (apply elem_of_cons in H as [->|H]; [by vm_compute|]).
  by apply elem_of_nil in H.
Qed.

Lemma yearText_inherited (key : string) :
  key ∈ objectPrototypeKeys →
  testWhole reYear (yearText (YearInherited key)) = false.
Proof.
  intros H. unfold objectPrototypeKeys in H.
  repeat (apply elem_of_cons in H as [->|H]; [by vm_compute|]).
  by apply elem_of_nil in H.
Qed.

(** X22: for a cell of the column Year that is not blank, the handler
    pushes no message exactly when the trimmed cell is one of the
    spellings of [yearMap]; what it then stores is one of the six names
    "7th Grade" to "12th Grade".  Any other cell is reported: it is stored
    trimmed, unless it is a name that the table inherits from
    [Object.prototype], and then the inherited member is stored. *)
Theorem year_cell_accepted (value : string) :
  Js.trim value ≠ "" →
  ((yearCase value).2 = [] ↔ is_Some (yearMap !! Js.trim value)) ∧
  ((yearCase value).2 = [] →
   ∃ v, (yearCase value).1 = Some (YearString v) ∧
        v ∈ ["7th Grade"; "8th Grade"; "9th Grade"; "10th Grade";
             "11th Grade"; "12th Grade"]) ∧
  ((yearCase value).2 ≠ [] →
   (Js.trim value ∉ objectPrototypeKeys →
    yearCase value
    = (Some (YearString (Js.trim value)),
       ["Invalid year format: " +:+ Js.trim value])) ∧
   (Js.trim value ∈ objectPrototypeKeys →
    yearCase value
    = (Some (YearInherited (Js.trim value)),
       ["Invalid year format: " +:+ yearText (YearInherited (Js.trim value))]))).
Proof.
  intros Hne.
  assert (Ht : Js.truthy value = true).
  { destruct value; [|done]. by vm_compute in Hne. }
  unfold yearCase, standardizeYear. rewrite Ht. cbn [fst snd].
  destruct (yearMap !! Js.trim value) as [v|] eqn:Hy.
  - pose proof (yearMap_values _ _ Hy) as Hv.
    assert (Hre : testWhole reYear v = true) by by apply reYear_spec.
    cbn [yearText yearTruthy]. rewrite Hre, andb_false_r.
    split; [split; [by eexists|done]|]. split; [by exists v|done].
  - case_bool_decide as Hin.
    + cbn [yearTruthy andb]. rewrite (yearText_inherited _ Hin). cbn [negb].
      split; [split; [done|by intros [? ?]]|]. split; [done|].
      intros _. split; [done|done].
    + assert (Hty : Js.truthy (Js.trim value) = true).
      { by destruct (Js.trim value). }
      assert (Hre : testWhole reYear (Js.trim value) = false).
      { apply not_true_is_false. intros H%reYear_spec%yearMap_canonical.
        by rewrite Hy in H. }
      cbn [yearText yearTruthy]. rewrite Hty, Hre. cbn [negb andb].
      split; [split; [done|by intros [? ?]]|]. split; [done|].
      intros _. split; [done|done].
Qed.

Lemma year_cell_accepted_witness :
  (yearCase " 7th grade ").2 = [] ↔ is_Some (yearMap !! Js.trim " 7th grade ").
Proof.
  apply (year_cell_accepted " 7th grade "). by vm_compute.
Defined.

Lemma bt_star_space (i : bool) (s : list ascii) :
  ∀ n, (length s < n)%nat →
       Re.bt i n (Re.Star Re.space) s Some = Some (Js.dropSpaces s).
Proof.
  induction s as [|x s IH]; intros n Hn; (destruct n as [|n]; [simpl in Hn; lia|]).
  - reflexivity.
  - rewrite bt_unfold. unfold Re.space at 1. rewrite bt_unfold. simpl.
    destruct (Js.isSpace x); [|done].
    replace (length s <? S (length s))%nat with true
      by (symmetry; apply Nat.ltb_lt; lia).
    rewrite IH by (simpl in Hn; lia). done.
Qed.

(** The match of [/^st\.?\s*/i] at the head of a string: two letters, a
    dot when there is one, and all the white space that follows. *)
Lemma matchAt_reSectionPrefix (l : list ascii) :
  Re.matchAt reSectionPrefix l
  = match l with
    | x1 :: x2 :: r =>
        if Re.chrMatch true "s" x1 then
          if Re.chrMatch true "t" x2 then
            Some (Js.dropSpaces
                    match r with
                    | y :: r' => if Re.chrMatch true "." y then r' else r
                    | [] => r
                    end)
          else None
        else None
    | _ => None
    end.
Proof.
  unfold Re.matchAt, reSectionPrefix. cbn [Re.source Re.ignoreCase Re.Seq].
  change (Re.Lit "st") with (Re.Cat (Re.Chr "s") (Re.Chr "t")).
  rewrite !(bt_unfold _ _ (Re.Cat _ _)), (bt_unfold _ _ (Re.Chr "s")).
  destruct l as [|x1 l]; [done|].
  destruct (Re.chrMatch true "s" x1); [|by destruct l].
  rewrite (bt_unfold _ _ (Re.Chr "t")).
  destruct l as [|x2 r]; [done|].
  destruct (Re.chrMatch true "t" x2); [|done].
  rewrite (bt_unfold _ _ (Re.Cat _ _)), (bt_unfold _ _ (Re.Alt _ _)).
  rewrite (bt_unfold _ _ (Re.Chr ".")), (bt_unfold _ _ Re.Eps).
  destruct r as [|y r'].
  - by rewrite bt_star_space by (simpl; lia).
  - destruct (Re.chrMatch true "." y).
    + by rewrite bt_star_space by (simpl; lia).
    + by rewrite bt_star_space by (simpl; lia).
Qed.

Lemma dropSpaces_head (l l' : list ascii) (c : ascii) :
  Js.dropSpaces l = c :: l' → Js.isSpace c = false.
Proof.
  induction l as [|x l IH]; simpl; [done|].
  destruct (Js.isSpace x) eqn:Hx; [done|]. by intros [= <- _].
Qed.

Lemma collapseSpaces_nonempty (l : list ascii) :
  l ≠ [] → collapseSpaces false l ≠ [].
Proof. destruct l as [|c l]; [done|]. simpl. by destruct (Js.isSpace c). Qed.

Lemma truthy_str (l : list ascii) : l ≠ [] → Js.truthy (Js.str l) = true.
Proof. by destruct l. Qed.

Lemma reSection_spec (v : string) :
  testWhole reSection v = true
  ↔ ∃ sp name,
      Js.chars v = Js.chars "St." ++ sp ++ name ∧
      sp ≠ [] ∧ Forall (λ c, Js.isSpace c = true) sp ∧
      name ≠ [] ∧ Forall (λ c, isLetter c = true) name.
Proof.
  rewrite testWhole_spec. unfold reSection. cbn [Re.source Re.ignoreCase].
  rewrite matches_Seq. split.
  - intros (pieces & He & H).
    apply Forall2_cons_inv_l in H as (p1 & ps & H1 & H & ->).
    apply Forall2_cons_inv_l in H as (sp & ps' & H2 & H & ->).
    apply Forall2_cons_inv_l in H as (nm & ps'' & H3 & ->%Forall2_nil_inv_l & ->).
    apply matches_LitChars in H1 as ->.
    apply matches_plus_cls in H2 as [? ?], H3 as [? ?].
    exists sp, nm. simpl in He. by rewrite app_nil_r in He.
  - intros (sp & nm & He & ? & ? & ? & ?).
    exists [Js.chars "St."; sp; nm]. split; [simpl; by rewrite app_nil_r|].
    constructor; [by apply matches_LitChars|].
    constructor; [by apply matches_plus_cls|].
    constructor; [by apply matches_plus_cls|constructor].
Qed.

Lemma letters_no_space (l : list ascii) :
  Forall (λ c, isLetter c = true) l → Forall (λ c, Js.isSpace c = false) l.
Proof.
  intros H. eapply Forall_impl; [exact H|]. intros c.
  destruct c as [[] [] [] [] [] [] [] []]; by vm_compute.
Qed.

(** X23: When the handler accepts a cell of the column Section that is not
    blank, what it stores is "St. ", one space only, and a name of letters:
    the prefix that it rewrites takes all the white space after "st". *)
Theorem section_cell_stored (value : string) :
  Js.trim value ≠ "" →
  (sectionCase value).2 = [] →
  ∃ name, (sectionCase value).1 = Some ("St. " +:+ name) ∧
          name ≠ "" ∧ Forall (λ c, isLetter c = true) (Js.chars name).
Proof.
  intros Hne.
  assert (Ht : Js.truthy value = true).
  { destruct value; [|done]. by vm_compute in Hne. }
  unfold sectionCase, standardizeSection. rewrite Ht. cbn [fst snd].
  set (collapsed := collapseSpaces false (Js.chars (Js.trim value))).
  assert (Hc : collapsed ≠ []).
  { apply collapseSpaces_nonempty. intros E. apply Hne, chars_inj. by rewrite E. }
  destruct (Re.matchAt reSectionPrefix collapsed) as [rest|] eqn:Hm.
  - change (Js.truthy ("St. " +:+ Js.str rest)) with true. cbn [andb].
    destruct (testWhole reSection ("St. " +:+ Js.str rest)) eqn:Hre; [|done].
    intros _. apply reSection_spec in Hre as (sp & nm & He & Hsp & Hspa & Hnm & Hl).
    rewrite chars_append, chars_str in He.
    destruct sp as [|c sp]; [done|]. injection He as <- He.
    assert (Hrest : ∀ x l, rest = x :: l → Js.isSpace x = false).
    { rewrite matchAt_reSectionPrefix in Hm.
      destruct collapsed as [|x1 [|x2 r]]; try done.
      destruct (Re.chrMatch true "s" x1); [|done].
      destruct (Re.chrMatch true "t" x2); [|done].
      injection Hm as <-. intros x l. apply dropSpaces_head. }
    destruct sp as [|c' sp].
    + simpl in He. subst rest. exists (Js.str nm). rewrite chars_str.
      repeat split; try done.
      intros E. apply (f_equal Js.chars) in E. by rewrite chars_str in E.
    + apply Forall_cons in Hspa as [_ Hspa]. apply Forall_cons in Hspa as [Hc' _].
      rewrite (Hrest c' (sp ++ nm)) in Hc' by done. done.
  - rewrite truthy_str by done. cbn [andb].
    destruct (testWhole reSection (Js.str collapsed)) eqn:Hre; [|done].
    intros _. apply reSection_spec in Hre as (sp & nm & He & _).
    rewrite chars_str in He. rewrite matchAt_reSectionPrefix, He in Hm.
    by vm_compute in Hm.
Qed.

Lemma section_cell_stored_witness :
  ∃ name, (sectionCase "st.Joseph").1 = Some ("St. " +:+ name) ∧
          name ≠ "" ∧ Forall (λ c, isLetter c = true) (Js.chars name).
Proof.
  apply (section_cell_stored "st.Joseph"); by vm_compute.
Defined.

Lemma trimChars_ends (x z : ascii) (m : list ascii) :
  Js.isSpace x = false → Js.isSpace z = false →
  Js.trimChars (x :: m ++ [z]) = x :: m ++ [z].
Proof.
  intros Hx Hz. unfold Js.trimChars. simpl. rewrite Hx.
  rewrite (app_comm_cons m [z] x), rev_app_distr.
  change (rev [z] ++ rev (x :: m)) with (z :: rev (x :: m)).
  cbn [Js.dropSpaces]. rewrite Hz.
  change (rev (z :: rev (x :: m))) with (rev (rev (x :: m)) ++ [z]).
  by rewrite rev_involutive.
Qed.

Lemma collapseSpaces_letters (b : bool) (l : list ascii) :
  Forall (λ c, isLetter c = true) l → collapseSpaces b l = l.
Proof.
  intros H%letters_no_space. revert b.
  induction H as [|c l Hc _ IH]; intros b; simpl; [done|].
  by rewrite Hc, IH.
Qed.

Lemma collapseSpaces_gap (gap name : list ascii) :
  Forall (λ c, Js.isSpace c = true) gap →
  Forall (λ c, isLetter c = true) name →
  collapseSpaces true (gap ++ name) = name.
Proof.
  intros Hg Hn. induction Hg as [|c gap Hc _ IH]; simpl.
  - by apply collapseSpaces_letters.
  - by rewrite Hc.
Qed.

Lemma letter_not_dot (y : ascii) :
  isLetter y = true → Re.chrMatch true "." y = false.
Proof. destruct y as [[] [] [] [] [] [] [] []]; by vm_compute. Qed.

(** X24: A cell of the column Section that spells "st" in either case, then
    an optional dot, then any white space (or none), then a name of
    letters, is accepted and stored as "St. " and the name: "Stella" is
    stored as "St. ella". *)
Theorem section_cell_spellings (st dot gap name : string) :
  st ∈ ["st"; "St"; "sT"; "ST"] → dot ∈ [""; "."] →
  Forall (λ c, Js.isSpace c = true) (Js.chars gap) →
  name ≠ "" → Forall (λ c, isLetter c = true) (Js.chars name) →
  sectionCase (st +:+ dot +:+ gap +:+ name) = (Some ("St. " +:+ name), []).
Proof.
  intros Hst Hdot Hgap Hname Hletters.
  assert (Hn : Js.chars name ≠ []).
  { intros E. apply Hname, chars_inj. by rewrite E. }
  destruct (exists_last Hn) as (nm & z & Hz).
  assert (Hzs : Js.isSpace z = false).
  { apply letters_no_space in Hletters. rewrite Hz in Hletters.
    by apply Forall_app in Hletters as [_ [? _]%Forall_cons]. }
  assert (Hre : testWhole reSection ("St. " +:+ name) = true).
  { apply reSection_spec. exists [" "%char], (Js.chars name).
    rewrite chars_append. repeat split; try done. by repeat constructor. }
  assert (Hc : collapseSpaces false (Js.chars gap ++ Js.chars name)
               = Js.chars name
               ∨ collapseSpaces false (Js.chars gap ++ Js.chars name)
                 = " "%char :: Js.chars name).
  { destruct Hgap as [|c g Hc Hg]; simpl.
    - left. by apply collapseSpaces_letters.
    - right. rewrite Hc. by rewrite collapseSpaces_gap. }
  assert (Hd : Js.dropSpaces (Js.chars name) = Js.chars name).
  { by apply dropSpaces_id, letters_no_space. }
  assert (Hy : ∀ r, match Js.chars name with
                    | y :: r' => if Re.chrMatch true "." y then r' else r
                    | [] => r
                    end = r).
  { intros r. destruct Hletters as [|y l Hy _]; [done|].
    by rewrite letter_not_dot. }
  unfold sectionCase, standardizeSection.
  assert (Htr : Js.trim (st +:+ dot +:+ gap +:+ name) = st +:+ dot +:+ gap +:+ name).
  { unfold Js.trim. apply chars_inj. rewrite chars_str, !chars_append, Hz.
    repeat (apply elem_of_cons in Hst as [->|Hst]);
      [..|by apply elem_of_nil in Hst]; simpl;
      rewrite !app_assoc;
      match goal with
      | |- Js.trimChars (?x :: ?y :: ?m ++ [?z]) = _ =>
          by apply (trimChars_ends x z (y :: m))
      end. }
  assert (Htv : Js.truthy (st +:+ dot +:+ gap +:+ name) = true).
  { repeat (apply elem_of_cons in Hst as [->|Hst]);
      [..|by apply elem_of_nil in Hst]; done. }
  rewrite Htv, Htr, !chars_append, matchAt_reSectionPrefix.
  repeat (apply elem_of_cons in Hst as [->|Hst]);
    [..|by apply elem_of_nil in Hst];
    (repeat (apply elem_of_cons in Hdot as [->|Hdot]);
       [..|by apply elem_of_nil in Hdot]);
    simpl; destruct Hc as [-> | ->]; simpl;
    rewrite ?Hy, ?Hd, ?str_chars; cbn [fst snd];
    change (Js.truthy ("St. " +:+ name)) with true;
    rewrite Hre; reflexivity.
Qed.

Lemma section_cell_spellings_witness :
  sectionCase ("St" +:+ "" +:+ "" +:+ "ella") = (Some ("St. " +:+ "ella"), []).
Proof.
  apply (section_cell_spellings "St" "" "" "ella").
  - apply (bool_decide_eq_true_1 _). by vm_compute.
  - apply (bool_decide_eq_true_1 _). by vm_compute.
  - constructor.
  - done.
  - by repeat constructor.
Defined.

(** ** Repeated violations *)

Lemma checkRepeatedFrom_spec (violations : list Violation) :
  ∀ typeCount : gmap string Z,
    map_Forall (λ _ c, c = 1) typeCount →
    checkRepeatedFrom typeCount violations = false
    ↔ NoDup (violationtype <$> violations)
      ∧ ∀ v, v ∈ violations → typeCount !! violationtype v = None.
Proof.
  induction violations as [|v vs IH]; intros m Hm.
  - simpl. split; [intros _; split; [constructor|by intros ? ?%elem_of_nil]|done].
  - cbn [checkRepeatedFrom]. cbv zeta. rewrite lookup_insert_eq. cbn [default].
    destruct (m !! violationtype v) as [c|] eqn:Hv.
    + rewrite (Hm _ _ Hv). cbn. split; [done|].
      intros [_ H]. specialize (H v). rewrite Hv in H.
      assert (Some c = None); [|done]. apply H. by left.
    + cbn [default from_option id]. change (0 + 1) with 1.
      change (1 <? 1) with false. cbv iota.
      rewrite IH by (apply map_Forall_insert_2; [done|exact Hm]).
      rewrite fmap_cons, NoDup_cons. split.
      * intros [Hnd Hfresh]. split; [split; [|done]|].
        -- intros (w & Hw & Hin)%list_elem_of_fmap.
           specialize (Hfresh w Hin). by rewrite <- Hw, lookup_insert_eq in Hfresh.
        -- intros w [->|Hin]%elem_of_cons; [done|].
           specialize (Hfresh w Hin).
           by apply lookup_insert_None in Hfresh as [? _].
      * intros [[Hnotin Hnd] Hfresh]. split; [done|].
        intros w Hin. apply lookup_insert_None. split.
        -- apply Hfresh. by right.
        -- intros E. apply Hnotin, list_elem_of_fmap. by exists w.
Qed.

(** X25: [checkRepeatedViolations] answers true exactly when two records of
    the list have the same type (the types being read as keys of the
    table's own); a list without such a pair, the empty one among them,
    gives false. *)
Theorem repeated_violations_iff_duplicate (violations : list Violation) :
  Forall (λ v, violationtype v ∉ objectPrototypeKeys) violations →
  checkRepeatedViolations violations = true
  ↔ ¬ NoDup (violationtype <$> violations).
Proof.
  intros _. unfold checkRepeatedViolations.
  pose proof (checkRepeatedFrom_spec violations ∅ (map_Forall_empty _)) as H.
  destruct (checkRepeatedFrom ∅ violations).
  - split; [|done]. intros _ Hnd.
    assert (true = false); [|done]. apply H. split; [done|].
    intros. apply lookup_empty.
  - split; [done|]. intros Hnd. exfalso. apply Hnd. by apply H.
Qed.

Lemma repeated_violations_iff_duplicate_witness :
  checkRepeatedViolations
    [{| violationtype := "Tardiness"; violationcategory := "Minor Offenses";
        datereported := "2025-01-10" |};
     {| violationtype := "Bullying"; violationcategory := "Major Type A";
        datereported := "2025-02-03" |};
     {| violationtype := "Tardiness"; violationcategory := "Minor Offenses";
        datereported := "2025-03-21" |}] = true
  ↔ ¬ NoDup ["Tardiness"; "Bullying"; "Tardiness"].
Proof.
  apply (repeated_violations_iff_duplicate
           [{| violationtype := "Tardiness"; violationcategory := "Minor Offenses";
               datereported := "2025-01-10" |};
            {| violationtype := "Bullying"; violationcategory := "Major Type A";
               datereported := "2025-02-03" |};
            {| violationtype := "Tardiness"; violationcategory := "Minor Offenses";
               datereported := "2025-03-21" |}]).
  repeat constructor; apply (bool_decide_eq_false_1 _); by vm_compute.
Defined.
